(** * sequential-http-utils: retry policy, retrying fetch loop, response
    parser and request builder

    A shallow embedding of [src/lib/retry-config.js] (class [RetryConfig]),
    [src/lib/fetch-retry.js] ([sleep], [fetchWithRetry]),
    [src/lib/response-parser.js] and [src/lib/request-builder.js], followed
    by their properties.

    Modelling conventions.
    - [maxRetries] and attempt numbers are integers ([Z]); the comparison
      [attemptNumber >= this.maxRetries] is the integer comparison.
    - The delay parameters are JavaScript numbers.  In the attempt loop
      they are exact rationals ([Q]): [*], [Math.pow] with an integer
      exponent, [Math.min], [Math.floor] and [Math.max] are the exact
      operations, which is what the source computes as long as no product
      is rounded or overflows.  [calculateDelayDouble] is the same
      function on IEEE-754 doubles, with rounding, [Infinity] and [NaN].
    - A transport failure has the shape the specification gives it: its
      [code] is a string or absent.
    - JavaScript truthiness is written out: [null]/[undefined] is [None],
      the number [0] and the empty string are falsy, objects are truthy.
    - [fetch], [Math.random] and [sleep] are the effects of the code.  They
      are threaded through a state monad over a [World] that holds the
      answers of the network and of the random source (one per call, in
      call order) and records the trace of fetches and sleeps. *)

From Stdlib Require Import ZArith QArith Qround Qminmax Qpower.
From Stdlib Require Import String Ascii List Bool Lia Lqa.
From Stdlib Require Import SpecFloat.
Import ListNotations.

Local Open Scope Z_scope.

(** ** JavaScript primitives used by the two files *)

Module JS.

(** Truthiness of a string: only the empty string is falsy. *)
Definition truthyString (s : string) : bool :=
  negb (String.eqb s EmptyString).

(** Truthiness of an integer-valued number: only [0] is falsy. *)
Definition truthyNumber (n : Z) : bool :=
  negb (n =? 0).

(** [a || b] where [a] is a string or [undefined] and [b] is a string. *)
Definition orElse (a : option string) (b : string) : string :=
  match a with
  | Some s => if truthyString s then s else b
  | None => b
  end.

(** [haystack.includes(needle)] on strings: [needle] occurs at some
    position of [haystack], compared character by character. *)
Fixpoint includes (haystack needle : string) : bool :=
  String.prefix needle haystack
  || match haystack with
     | EmptyString => false
     | String _ rest => includes rest needle
     end.

(** [xs.includes(x)] on an array of numbers. *)
Definition arrayIncludes (xs : list Z) (x : Z) : bool :=
  existsb (fun y => y =? x) xs.

(** [xs.some(p)]. *)
Definition some {A : Type} (xs : list A) (p : A -> bool) : bool :=
  existsb p xs.

End JS.

(** ** Data *)

(** A transport failure as thrown by [fetch]: an error object with an
    optional [code] and a [message].  The [code], when present, is a
    string, as in the specification; on a [code] that is truthy and not a
    string the source's [errorCode.includes] is not a function, and that
    case is outside this type. *)
Record Failure : Type := mkFailure {
  code : option string;
  message : string
}.

(** A response descriptor.  [ok] is not stored: the Fetch standard defines
    it as "status in the range 200 to 299". *)
Record Response : Type := mkResponse {
  status : Z;
  statusText : string;
  body : string
}.

Definition ok (response : Response) : bool :=
  (200 <=? status response) && (status response <=? 299).

(** The [options] argument of the [RetryConfig] constructor: every field
    may be missing. *)
Record RetryOptions : Type := mkRetryOptions {
  optMaxRetries : option Z;
  optInitialDelayMs : option Q;
  optMaxDelayMs : option Q;
  optBackoffMultiplier : option Q;
  optJitterFraction : option Q;
  optRetryableStatusCodes : option (list Z);
  optRetryableErrors : option (list string)
}.

Record RetryConfig : Type := mkRetryConfig {
  maxRetries : Z;
  initialDelayMs : Q;
  maxDelayMs : Q;
  backoffMultiplier : Q;
  jitterFraction : Q;
  retryableStatusCodes : list Z;
  retryableErrors : list string
}.

(** [a ?? b]. *)
Definition nullish {A : Type} (a : option A) (b : A) : A :=
  match a with
  | Some x => x
  | None => b
  end.

(** [new RetryConfig(options)]. *)
Definition newRetryConfig (options : RetryOptions) : RetryConfig :=
  {| maxRetries := nullish (optMaxRetries options) 3;
     initialDelayMs := nullish (optInitialDelayMs options) (1000 # 1);
     maxDelayMs := nullish (optMaxDelayMs options) (30000 # 1);
     backoffMultiplier := nullish (optBackoffMultiplier options) (2 # 1);
     jitterFraction := nullish (optJitterFraction options) (1 # 10);
     retryableStatusCodes :=
       nullish (optRetryableStatusCodes options) [408; 429; 500; 502; 503; 504];
     retryableErrors :=
       nullish (optRetryableErrors options)
         ["ECONNREFUSED"%string; "ENOTFOUND"%string; "ETIMEDOUT"%string] |}.

(** [options = {}]. *)
Definition noOptions : RetryOptions :=
  mkRetryOptions None None None None None None None.

(** ** [RetryConfig.shouldRetry] *)

Definition shouldRetry (config : RetryConfig) (statusCode : option Z)
    (error : option Failure) (attemptNumber : Z) : bool :=
  if attemptNumber >=? maxRetries config then false
  else
    match error with
    | Some e =>
        let errorCode :=
          JS.orElse (code e) (JS.orElse (Some (message e)) EmptyString) in
        JS.some (retryableErrors config)
                (fun marker => JS.includes errorCode marker)
    | None =>
        match statusCode with
        | Some s =>
            if JS.truthyNumber s
            then JS.arrayIncludes (retryableStatusCodes config) s
            else false
        | None => false
        end
    end.

(** ** Effects: the world, the monad, and the three effectful primitives *)

Inductive FetchResult : Type :=
| Resolved (response : Response)
| Rejected (error : Failure).

Inductive Event : Type :=
| EvFetch (url : string)
| EvSleep (ms : Z).

Record World : Type := mkWorld {
  network : string -> nat -> FetchResult;
  entropy : nat -> Q;
  fetchCalls : nat;
  randomCalls : nat;
  trace : list Event
}.

Definition M (A : Type) : Type := World -> A * World.

Definition ret {A : Type} (a : A) : M A :=
  fun w => (a, w).

Definition bind {A B : Type} (m : M A) (k : A -> M B) : M B :=
  fun w => let (a, w') := m w in k a w'.

Declare Scope retry_scope.
Delimit Scope retry_scope with retry.
Notation "x <- m ;; k" := (bind m (fun x => k))
  (at level 100, m at next level, right associativity) : retry_scope.
Notation "m ;; k" := (bind m (fun _ => k))
  (at level 100, right associativity) : retry_scope.
Local Open Scope retry_scope.

Definition record (ev : Event) (w : World) : World :=
  {| network := network w;
     entropy := entropy w;
     fetchCalls := fetchCalls w;
     randomCalls := randomCalls w;
     trace := (trace w ++ [ev])%list |}.

(** [Math.random()]: the next draw of the random source. *)
Definition mathRandom : M Q :=
  fun w =>
    (entropy w (randomCalls w),
     {| network := network w;
        entropy := entropy w;
        fetchCalls := fetchCalls w;
        randomCalls := S (randomCalls w);
        trace := trace w |}).

(** [await sleep(ms)]. *)
Definition sleep (ms : Z) : M unit :=
  fun w => (tt, record (EvSleep ms) w).

(** [await fetch(url, options)]: the next answer of the network, either a
    response or a thrown failure.  [options] is forwarded unchanged on
    every call, like [url]. *)
Definition fetch (url : string) : M FetchResult :=
  fun w =>
    (network w url (fetchCalls w),
     record (EvFetch url)
       {| network := network w;
          entropy := entropy w;
          fetchCalls := S (fetchCalls w);
          randomCalls := randomCalls w;
          trace := trace w |}).

(** ** [RetryConfig.calculateDelay] *)

Definition calculateDelay (config : RetryConfig) (attemptNumber : Z) : M Z :=
  let exponentialDelay :=
    (initialDelayMs config * backoffMultiplier config ^ attemptNumber)%Q in
  let cappedDelay := Qmin exponentialDelay (maxDelayMs config) in
  let jitterAmount := (cappedDelay * jitterFraction config)%Q in
  r <- mathRandom ;;
  let jitter := ((r - (1 # 2)) * (2 # 1) * jitterAmount)%Q in
  ret (Z.max 0 (Qfloor (cappedDelay + jitter)%Q)).

(** ** [fetchWithRetry] *)

Inductive Thrown : Type :=
| ThrownFailure (error : Failure)
| ThrownError (msg : string).

Inductive Completion : Type :=
| Returned (response : Response)
| Threw (error : Thrown).

(** How the [for] loop is left: by a [return] or [throw] in its body, or by
    its condition becoming false.  [OutOfFuel] is the recursion bound of
    the model running out; [attemptLoop_fuel] shows it never happens. *)
Inductive LoopExit : Type :=
| Exited (c : Completion)
| FellThrough (lastError : option Failure) (lastResponse : option Response)
| OutOfFuel.

Fixpoint attemptLoop (config : RetryConfig) (url : string) (fuel : nat)
    (attempt : Z) (lastError : option Failure)
    (lastResponse : option Response) : M LoopExit :=
  if attempt <=? maxRetries config then
    match fuel with
    | O => ret OutOfFuel
    | S fuel' =>
        (if 0 <? attempt
         then (delayMs <- calculateDelay config (attempt - 1) ;;
               sleep delayMs)
         else ret tt) ;;
        result <- fetch url ;;
        match result with
        | Resolved response =>
            let lastResponse := Some response in
            if ok response then ret (Exited (Returned response))
            else if negb (shouldRetry config (Some (status response)) None attempt)
            then ret (Exited (Returned response))
            else attemptLoop config url fuel' (attempt + 1)
                             lastError lastResponse
        | Rejected error =>
            let lastError := Some error in
            if negb (shouldRetry config None (Some error) attempt)
            then ret (Exited (Threw (ThrownFailure error)))
            else attemptLoop config url fuel' (attempt + 1)
                             lastError lastResponse
        end
    end
  else ret (FellThrough lastError lastResponse).

(** The code after the loop. *)
Definition afterLoop (lastError : option Failure)
    (lastResponse : option Response) : Completion :=
  match lastResponse with
  | Some response => Returned response
  | None =>
      match lastError with
      | Some error => Threw (ThrownFailure error)
      | None => Threw (ThrownError "Fetch failed after all retries")
      end
  end.

(** [retryConfig || new RetryConfig()]. *)
Definition configOrDefault (retryConfig : option RetryConfig) : RetryConfig :=
  match retryConfig with
  | Some config => config
  | None => newRetryConfig noOptions
  end.

Definition fetchWithRetry (url : string) (retryConfig : option RetryConfig)
    : M (option Completion) :=
  let config := configOrDefault retryConfig in
  exit <- attemptLoop config url (Z.to_nat (maxRetries config + 1)) 0 None None ;;
  ret match exit with
      | Exited c => Some c
      | FellThrough lastError lastResponse =>
          Some (afterLoop lastError lastResponse)
      | OutOfFuel => None
      end.

(** ** Vocabulary of the statements *)

(** [marker] occurs in [text] as a contiguous, character-exact substring. *)
Definition Substring (marker text : string) : Prop :=
  exists before after : string,
    text = (before ++ marker ++ after)%string.

(** The text of a failure that the policy inspects, in the words of the
    specification: the failure's code, or its message when the code is
    absent or empty. *)
Definition failureText (e : Failure) : string :=
  match code e with
  | Some c => if String.eqb c EmptyString then message e else c
  | None => message e
  end.

(** The value [calculateDelay] returns when [Math.random()] yields [r]. *)
Definition delayFromDraw (config : RetryConfig) (attemptNumber : Z) (r : Q) : Z :=
  let cappedDelay :=
    Qmin (initialDelayMs config * backoffMultiplier config ^ attemptNumber)%Q
         (maxDelayMs config) in
  Z.max 0 (Qfloor (cappedDelay
                   + (r - (1 # 2)) * (2 # 1) * (cappedDelay * jitterFraction config))%Q).

(** A run starts in a world where nothing has happened yet. *)
Definition initialWorld (net : string -> nat -> FetchResult) (ent : nat -> Q)
    : World :=
  {| network := net; entropy := ent;
     fetchCalls := 0; randomCalls := 0; trace := [] |}.

Definition attempts (events : list Event) : nat :=
  List.length (filter (fun ev => match ev with EvFetch _ => true | EvSleep _ => false end) events).

Definition sleeps (events : list Event) : nat :=
  List.length (filter (fun ev => match ev with EvSleep _ => true | EvFetch _ => false end) events).

Section Run.

Variable config : RetryConfig.
Variable url : string.
Variable net : string -> nat -> FetchResult.
Variable ent : nat -> Q.

(** The delay slept before attempt [S k]: [calculateDelay k] on the
    [k]-th draw of the random source. *)
Definition delayBefore (k : nat) : Z :=
  delayFromDraw config (Z.of_nat k) (ent k).

(** The events of the first [n] attempts: attempt 0 is not preceded by a
    sleep, attempt [S k] is preceded by the sleep [delayBefore k]. *)
Fixpoint schedule (n : nat) : list Event :=
  match n with
  | O => []
  | S m =>
      schedule m
      ++ match m with
         | O => []
         | S k => [EvSleep (delayBefore k)]
         end
      ++ [EvFetch url]
  end.

(** The world after [n] attempts. *)
Definition worldAfter (n : nat) : World :=
  {| network := net; entropy := ent;
     fetchCalls := n; randomCalls := Nat.pred n; trace := schedule n |}.

(** Attempt [k] ends with the loop going round again. *)
Definition retried (k : nat) : bool :=
  match net url k with
  | Resolved response =>
      negb (ok response)
      && shouldRetry config (Some (status response)) None (Z.of_nat k)
  | Rejected error => shouldRetry config None (Some error) (Z.of_nat k)
  end.

(** What the loop body does with the answer of an attempt that is not
    retried: a response is returned, a failure is rethrown. *)
Definition settle (result : FetchResult) : Completion :=
  match result with
  | Resolved response => Returned response
  | Rejected error => Threw (ThrownFailure error)
  end.

End Run.

(** A policy that lists the status code [0] as retryable. *)
Definition zeroStatusConfig : RetryConfig :=
  newRetryConfig
    (mkRetryOptions None None None None None (Some [0; 503]) None).

(** The policy of the backoff scenario: three retries, 1000 ms doubling up
    to 30000 ms, no jitter. *)
Definition scenarioConfig (codes : list Z) (markers : list string) : RetryConfig :=
  mkRetryConfig 3 (1000 # 1) (30000 # 1) (2 # 1) 0 codes markers.

(** ** Concrete inputs used to exercise the statements *)

Definition serviceUnavailable : Response :=
  mkResponse 503 "Service Unavailable" "".

Definition okResponse : Response :=
  mkResponse 200 "OK" "hello".

Definition connectionRefused : Failure :=
  mkFailure (Some "ECONNREFUSED"%string) "connect ECONNREFUSED 127.0.0.1:80".

Definition badDescriptor : Failure :=
  mkFailure (Some "EBADF"%string) "bad file descriptor".

Definition twoRetries : RetryConfig :=
  newRetryConfig (mkRetryOptions (Some 2) None None None None None None).

Definition always (result : FetchResult) : string -> nat -> FetchResult :=
  fun _ _ => result.

Definition constantDraw (r : Q) : nat -> Q :=
  fun _ => r.

(** ** The rest of [retry-config.js] and [fetch-retry.js] *)

(** [RetryConfig.getConfig]: a new object with the seven fields of the
    policy; the two arrays are copied. *)
Definition getConfig (config : RetryConfig) : RetryOptions :=
  {| optMaxRetries := Some (maxRetries config);
     optInitialDelayMs := Some (initialDelayMs config);
     optMaxDelayMs := Some (maxDelayMs config);
     optBackoffMultiplier := Some (backoffMultiplier config);
     optJitterFraction := Some (jitterFraction config);
     optRetryableStatusCodes := Some (retryableStatusCodes config);
     optRetryableErrors := Some (retryableErrors config) |}.

(** [createFetchWithRetry]: the policy is chosen once, when the function
    is created; [customFetch] passes it to every call. *)
Definition createFetchWithRetry (retryConfig : option RetryConfig)
    : string -> M (option Completion) :=
  let config := configOrDefault retryConfig in
  fun url => fetchWithRetry url (Some config).

(** ** [RetryConfig.calculateDelay] on IEEE-754 doubles *)

(** A JavaScript number is an IEEE-754 binary64 value: a [spec_float] at
    precision 53 and maximal exponent 1024. *)
Definition double : Type := spec_float.

Definition doubleMul : double -> double -> double := SFmul 53 1024.

Definition doubleAdd : double -> double -> double := SFadd 53 1024.

Definition doubleSub : double -> double -> double := SFsub 53 1024.

(** The double nearest to [m * 2 ^ e]. *)
Definition doubleOf (m e : Z) : double :=
  binary_normalize 53 1024 m e false.

(** [Math.min(a, b)]: [NaN] if either is [NaN]; [-0] is below [+0]. *)
Definition mathMin (a b : double) : double :=
  match SFcompare a b with
  | None => S754_nan
  | Some Lt => a
  | Some Gt => b
  | Some Eq =>
      match b with
      | S754_zero true => b
      | _ => a
      end
  end.

(** [Math.max(a, b)]: [NaN] if either is [NaN]; [+0] is above [-0]. *)
Definition mathMax (a b : double) : double :=
  match SFcompare a b with
  | None => S754_nan
  | Some Gt => a
  | Some Lt => b
  | Some Eq =>
      match b with
      | S754_zero false => b
      | _ => a
      end
  end.

(** [Math.floor(x)]: [NaN], the infinities and the zeros are kept; a
    finite [x] is rounded down to an integer, which is a double again. *)
Definition mathFloor (x : double) : double :=
  match x with
  | S754_finite s m e =>
      match Z.shiftl (cond_Zopp s (Zpos m)) e with
      | Z0 => S754_zero s
      | z => binary_normalize 53 1024 z 0 s
      end
  | _ => x
  end.

(** The four numeric settings of a policy, as doubles. *)
Record DelaySettings : Type := mkDelaySettings {
  doubleInitialDelayMs : double;
  doubleMaxDelayMs : double;
  doubleBackoffMultiplier : double;
  doubleJitterFraction : double
}.

Section DoubleDelay.

(** [Math.pow] is a function of the platform: the language fixes its
    special cases and leaves the accuracy of its other results to the
    implementation. *)
Variable mathPow : double -> double -> double.

(** [calculateDelay] with its numbers as doubles; [random] is the result
    of [Math.random()]. *)
Definition calculateDelayDouble (settings : DelaySettings)
    (attemptNumber random : double) : double :=
  let exponentialDelay :=
    doubleMul (doubleInitialDelayMs settings)
              (mathPow (doubleBackoffMultiplier settings) attemptNumber) in
  let cappedDelay := mathMin exponentialDelay (doubleMaxDelayMs settings) in
  let jitterAmount := doubleMul cappedDelay (doubleJitterFraction settings) in
  let jitter :=
    doubleMul (doubleMul (doubleSub random (doubleOf 1 (-1))) (doubleOf 2 0))
              jitterAmount in
  mathMax (S754_zero false) (mathFloor (doubleAdd cappedDelay jitter)).

End DoubleDelay.

(** ** JavaScript objects used as string-keyed maps *)

(** An object with string-valued properties: its own enumerable
    properties with their values.  The statements below read an object
    only through [getProp], so the order of the list is not observed. *)
Definition JsObject : Type := list (string * string).

(** The own property [k] of [o]: its value, or nothing if [o] has no own
    property [k]. *)
Fixpoint getProp (o : JsObject) (k : string) : option string :=
  match o with
  | [] => None
  | (k', v) :: rest => if String.eqb k' k then Some v else getProp rest k
  end.

(** Defining the own property [k] with value [v]: an existing property is
    overwritten in place, a new one is added. *)
Fixpoint defineProp (o : JsObject) (k v : string) : JsObject :=
  match o with
  | [] => [(k, v)]
  | (k', v') :: rest =>
      if String.eqb k' k then (k', v) :: rest
      else (k', v') :: defineProp rest k v
  end.

(** [o[k] = v] for a string [v] on an object whose prototype is
    [Object.prototype]: the own property [k] is defined, except for the
    key [__proto__].  That key is an accessor of [Object.prototype]; its
    setter ignores a value that is not an object, so nothing is stored. *)
Definition setProp (o : JsObject) (k v : string) : JsObject :=
  if String.eqb k "__proto__" then o else defineProp o k v.

(** [Object.assign(target, source)]: the properties of [source] are
    assigned to [target] one after the other. *)
Definition assign (target source : JsObject) : JsObject :=
  fold_left (fun o kv => setProp o (fst kv) (snd kv)) source target.

(** [Object.fromEntries(entries)]: every entry is defined as an own
    property of a new object, whatever its key. *)
Definition fromEntries (entries : list (string * string)) : JsObject :=
  fold_left (fun o kv => defineProp o (fst kv) (snd kv)) entries [].

(** ** JSON-representable JavaScript values *)

#[warnings="-register-all"]
Inductive Json : Type :=
| JNull
| JBool (b : bool)
| JNumber (q : Q)
| JString (s : string)
| JArray (items : list Json)
| JObject (members : list (string * Json)).

(** Truthiness of a value: [null], [false], [0] and [""] are falsy. *)
Definition truthy (v : Json) : bool :=
  match v with
  | JNull => false
  | JBool b => b
  | JNumber q => negb (Qeq_bool q 0)
  | JString s => JS.truthyString s
  | JArray _ => true
  | JObject _ => true
  end.

(** [typeof v === 'object' && v !== null]. *)
Definition isObject (v : Json) : bool :=
  match v with
  | JArray _ => true
  | JObject _ => true
  | _ => false
  end.

(** ** [response-parser.js] *)

(** The [headers] of a response, as far as the parser looks at it: the
    [get] method and the result of the [entries] method, each of which the
    object may lack (the code calls them with [?.]). *)
Record HeadersObject : Type := mkHeadersObject {
  headersGet : option (string -> option string);
  headersEntries : option (list (string * string))
}.

(** The response handed to the parser: the descriptor returned by
    [fetchWithRetry], its [headers] (possibly missing), and what
    [await response.json()] and [await response.text()] do: reject with an
    error or resolve with a value. *)
Record FetchedResponse : Type := mkFetchedResponse {
  descriptor : Response;
  responseHeaders : option HeadersObject;
  jsonResult : Failure + Json;
  textResult : Failure + string
}.

(** [class ResponseParseError extends Error]. *)
Record ResponseParseError : Type := mkResponseParseError {
  errorMessage : string;
  errorName : string;
  errorStatusCode : option Z;
  originalError : option Failure
}.

(** [new ResponseParseError(message, statusCode = null, originalError = null)]. *)
Definition newResponseParseError (msg : string) (statusCode : option Z)
    (original : option Failure) : ResponseParseError :=
  {| errorMessage := msg;
     errorName := "ResponseParseError";
     errorStatusCode := statusCode;
     originalError := original |}.

(** What a [catch] clause around the parser can receive: a
    [ResponseParseError] or some other error. *)
Inductive ParserThrown : Type :=
| ThrownParseError (e : ResponseParseError)
| ThrownOther (e : Failure).

Inductive ParsedData : Type :=
| JsonData (data : Json)
| TextData (text : string).

(** The object returned by [parseResponse] and [parseResponseSafe]; the
    latter may have [data: null] and an [error] property. *)
Record ParsedResponse : Type := mkParsedResponse {
  parsedStatus : Z;
  parsedStatusText : string;
  parsedHeaders : JsObject;
  parsedData : option ParsedData;
  parsedError : option string
}.

(** [response.headers?.get?.('content-type') || '']. *)
Definition contentTypeOf (response : FetchedResponse) : string :=
  JS.orElse
    match responseHeaders response with
    | Some h =>
        match headersGet h with
        | Some get => get "content-type"%string
        | None => None
        end
    | None => None
    end
    EmptyString.

Section Parser.

(** The [TypeError] the engine raises for [response.headers.entries] when
    [response.headers] is undefined.  Its message is engine-specific. *)
Variable typeError : Failure.

(** The object literal of the two [return] statements.  Evaluating
    [response.headers.entries?.() || []] throws when there is no
    [headers]. *)
Definition parsedObject (response : FetchedResponse) (data : ParsedData)
    : Failure + ParsedResponse :=
  match responseHeaders response with
  | None => inl typeError
  | Some h =>
      inr {| parsedStatus := status (descriptor response);
             parsedStatusText := statusText (descriptor response);
             parsedHeaders := fromEntries (nullish (headersEntries h) []);
             parsedData := Some data;
             parsedError := None |}
  end.

Definition parseResponse (response : option FetchedResponse)
    : ParserThrown + ParsedResponse :=
  match response with
  | None =>
      inl (ThrownParseError
             (newResponseParseError "Response object is null or undefined"
                                    None None))
  | Some response =>
      let contentType := contentTypeOf response in
      let isJson := JS.includes contentType "application/json" in
      if isJson then
        match
          match jsonResult response with
          | inl error => inl error
          | inr data => parsedObject response (JsonData data)
          end
        with
        | inr result => inr result
        | inl error =>
            inl (ThrownParseError
                   (newResponseParseError
                      ("Failed to parse JSON response: " ++ message error)
                      (Some (status (descriptor response)))
                      (Some error)))
        end
      else
        match
          match textResult response with
          | inl error => inl error
          | inr text => parsedObject response (TextData text)
          end
        with
        | inr result => inr result
        | inl error =>
            inl (ThrownParseError
                   (newResponseParseError
                      ("Failed to read response body: " ++ message error)
                      (Some (status (descriptor response)))
                      (Some error)))
        end
  end.

(** [a || b || 0] on status codes. *)
Definition statusOr (a b : option Z) : Z :=
  match a with
  | Some x => if JS.truthyNumber x then x else
                match b with
                | Some y => if JS.truthyNumber y then y else 0
                | None => 0
                end
  | None =>
      match b with
      | Some y => if JS.truthyNumber y then y else 0
      | None => 0
      end
  end.

Definition parseResponseSafe (response : option FetchedResponse)
    : ParsedResponse :=
  match parseResponse response with
  | inr result => result
  | inl (ThrownParseError error) =>
      {| parsedStatus :=
           statusOr (errorStatusCode error)
                    (option_map (fun r => status (descriptor r)) response);
         parsedStatusText :=
           JS.orElse (option_map (fun r => statusText (descriptor r)) response)
                     "Unknown";
         parsedHeaders := [];
         parsedData := None;
         parsedError := Some (errorMessage error) |}
  | inl (ThrownOther error) =>
      {| parsedStatus :=
           statusOr (option_map (fun r => status (descriptor r)) response) None;
         parsedStatusText :=
           JS.orElse (option_map (fun r => statusText (descriptor r)) response)
                     "Unknown";
         parsedHeaders := [];
         parsedData := None;
         parsedError := Some (message error) |}
  end.

End Parser.

(** ** [request-builder.js] *)

(** The [headers] object of a builder is shared: [build] puts the very
    same object into the options it returns.  Header objects therefore
    live in a heap and are referred to by address; [new RequestBuilder]
    allocates a fresh one. *)
Definition Heap : Type := list JsObject.

Definition heapGet (h : Heap) (address : nat) : JsObject :=
  nth address h [].

Fixpoint heapSet (h : Heap) (address : nat) (o : JsObject) : Heap :=
  match h, address with
  | [], _ => []
  | _ :: rest, O => o :: rest
  | first :: rest, S address' => first :: heapSet rest address' o
  end.

Definition heapAlloc (h : Heap) (o : JsObject) : nat * Heap :=
  (List.length h, (h ++ [o])%list).

Record AbortSignal : Type := mkAbortSignal {
  aborted : bool
}.

(** The fields of a [RequestBuilder].  Every method returns [this]; here a
    method takes the builder and the heap and returns both. *)
Record RequestBuilder : Type := mkRequestBuilder {
  builderUrl : string;
  builderMethod : string;
  builderHeaders : nat;
  builderBody : Json;
  builderTimeout : option Z;
  builderSignal : option AbortSignal
}.

(** The object returned by [build]; [body], [timeout] and [signal] are
    properties it may lack. *)
Record RequestOptions : Type := mkRequestOptions {
  optionsMethod : string;
  optionsHeaders : nat;
  optionsBody : option string;
  optionsTimeout : option Z;
  optionsSignal : option AbortSignal
}.

(** [new RequestBuilder(url, method = 'GET')]. *)
Definition newRequestBuilder (url : string) (method : option string)
    (h : Heap) : RequestBuilder * Heap :=
  let (address, h') := heapAlloc h [] in
  ({| builderUrl := url;
      builderMethod := nullish method "GET"%string;
      builderHeaders := address;
      builderBody := JNull;
      builderTimeout := None;
      builderSignal := None |}, h').

Definition setHeader (name value : string) (this : RequestBuilder) (h : Heap)
    : RequestBuilder * Heap :=
  (this,
   heapSet h (builderHeaders this)
     (setProp (heapGet h (builderHeaders this)) name value)).

Definition setHeaders (headers : JsObject) (this : RequestBuilder) (h : Heap)
    : RequestBuilder * Heap :=
  (this,
   heapSet h (builderHeaders this)
     (assign (heapGet h (builderHeaders this)) headers)).

Definition withBody (this : RequestBuilder) (value : Json) : RequestBuilder :=
  {| builderUrl := builderUrl this;
     builderMethod := builderMethod this;
     builderHeaders := builderHeaders this;
     builderBody := value;
     builderTimeout := builderTimeout this;
     builderSignal := builderSignal this |}.

Definition setBody (value : Json) (this : RequestBuilder) (h : Heap)
    : RequestBuilder * Heap :=
  let this := withBody this value in
  if isObject value
  then setHeader "Content-Type" "application/json" this h
  else (this, h).

Definition setTimeout (ms : Z) (this : RequestBuilder) (h : Heap)
    : RequestBuilder * Heap :=
  ({| builderUrl := builderUrl this;
      builderMethod := builderMethod this;
      builderHeaders := builderHeaders this;
      builderBody := builderBody this;
      builderTimeout := Some ms;
      builderSignal := builderSignal this |}, h).

Definition setAbortSignal (signal : option AbortSignal) (this : RequestBuilder)
    (h : Heap) : RequestBuilder * Heap :=
  ({| builderUrl := builderUrl this;
      builderMethod := builderMethod this;
      builderHeaders := builderHeaders this;
      builderBody := builderBody this;
      builderTimeout := builderTimeout this;
      builderSignal := signal |}, h).

(** [addAuthHeader(token, scheme = 'Bearer')]. *)
Definition addAuthHeader (token : string) (scheme : option string)
    (this : RequestBuilder) (h : Heap) : RequestBuilder * Heap :=
  setHeader "Authorization"
            (nullish scheme "Bearer" ++ " " ++ token)%string this h.

Definition addCustomHeader (name value : string) (this : RequestBuilder)
    (h : Heap) : RequestBuilder * Heap :=
  setHeader name value this h.

Section Builder.

(** [JSON.stringify] on JSON-representable values and
    [new URLSearchParams(data).toString()] on name-value pairs are
    functions of the platform. *)
Variable jsonStringify : Json -> string.
Variable formEncode : list (string * string) -> string.

Definition setJsonBody (data : Json) (this : RequestBuilder) (h : Heap)
    : RequestBuilder * Heap :=
  setHeader "Content-Type" "application/json"
            (withBody this (JString (jsonStringify data))) h.

Definition setFormBody (data : list (string * string))
    (this : RequestBuilder) (h : Heap) : RequestBuilder * Heap :=
  setHeader "Content-Type" "application/x-www-form-urlencoded"
            (withBody this (JString (formEncode data))) h.

Definition build (this : RequestBuilder) : RequestOptions :=
  {| optionsMethod := builderMethod this;
     optionsHeaders := builderHeaders this;
     optionsBody :=
       if truthy (builderBody this)
       then Some match builderBody this with
                 | JString s => s
                 | other => jsonStringify other
                 end
       else None;
     optionsTimeout :=
       match builderTimeout this with
       | Some ms => if JS.truthyNumber ms then Some ms else None
       | None => None
       end;
     optionsSignal := builderSignal this |}.

End Builder.

(** [buildRequest(url, method = 'GET')]. *)
Definition buildRequest (url : string) (method : option string) (h : Heap)
    : RequestBuilder * Heap :=
  newRequestBuilder url method h.

(** The header [name], an own property of the headers object at address
    [a] in heap [h]. *)
Definition headerAt (h : Heap) (a : nat) (name : string) : option string :=
  getProp (heapGet h a) name.

(** The builder's headers object has been allocated. *)
Definition validBuilder (this : RequestBuilder) (h : Heap) : Prop :=
  (builderHeaders this < List.length h)%nat.

(** ** More concrete inputs *)

Definition negativeBudget : RetryConfig :=
  newRetryConfig (mkRetryOptions (Some (-1)) None None None None None None).

Definition noRetries : RetryConfig :=
  newRetryConfig (mkRetryOptions (Some 0) None None None None None None).

Definition anyFailureRetryable : RetryConfig :=
  newRetryConfig
    (mkRetryOptions None None None None None None (Some [EmptyString])).

Definition nothingRetryable : RetryConfig :=
  newRetryConfig (mkRetryOptions None None None None None (Some []) (Some [])).

Definition opaqueResponse : Response :=
  mkResponse 0 EmptyString EmptyString.

(** A network that refuses the first connection and answers the second. *)
Definition failThenSucceed : string -> nat -> FetchResult :=
  fun _ k =>
    match k with
    | O => Rejected connectionRefused
    | S _ => Resolved okResponse
    end.

Definition engineTypeError : Failure :=
  mkFailure None "Cannot read properties of undefined (reading 'entries')".

Definition jsonHeaders : HeadersObject :=
  {| headersGet :=
       Some (fun name =>
               if String.eqb name "content-type"
               then Some "application/json; charset=utf-8"%string
               else None);
     headersEntries :=
       Some [("content-type", "application/json; charset=utf-8");
             ("set-cookie", "a=1");
             ("set-cookie", "b=2")]%string |}.

Definition jsonResponse : FetchedResponse :=
  {| descriptor := okResponse;
     responseHeaders := Some jsonHeaders;
     jsonResult := inr (JObject [("greeting"%string, JString "hello")]);
     textResult := inr "greeting: hello"%string |}.


Definition headerlessResponse : FetchedResponse :=
  {| descriptor := okResponse;
     responseHeaders := None;
     jsonResult := inl (mkFailure None "Unexpected token h in JSON at position 0");
     textResult := inr "hello"%string |}.

(** A stand-in for [JSON.stringify], exact on the values used below. *)
Definition sampleStringify (v : Json) : string :=
  match v with
  | JNull => "null"
  | JBool true => "true"
  | JBool false => "false"
  | JArray [] => "[]"
  | _ => "{}"
  end.

Definition sampleFormEncode (data : list (string * string)) : string :=
  match data with
  | [] => EmptyString
  | (k, v) :: _ => k ++ "=" ++ v
  end.

Definition sampleBuilder : RequestBuilder * Heap :=
  buildRequest "https://example.test/items" (Some "POST"%string) [].

(** The result of parsing [jsonResponse]. *)
Definition parsedJson : ParsedResponse :=
  {| parsedStatus := 200;
     parsedStatusText := "OK";
     parsedHeaders :=
       [("content-type", "application/json; charset=utf-8");
        ("set-cookie", "b=2")]%string;
     parsedData := Some (JsonData (JObject [("greeting"%string, JString "hello")]));
     parsedError := None |}.

(** A stand-in for [Math.pow] on a finite base and a positive integer
    exponent: the exact power, rounded to the nearest double. *)
Definition integerPow (base exponent : double) : double :=
  match base, exponent with
  | S754_finite sb mb eb, S754_finite false me ee =>
      let n := Z.shiftl (Zpos me) ee in
      binary_normalize 53 1024
        (cond_Zopp (sb && Z.odd n) (Zpos mb ^ n)) (eb * n) false
  | _, _ => S754_nan
  end.

(** The default settings with [initialDelayMs: 0]: no initial delay, cap
    30000, multiplier 2 and jitter fraction 0.1 (as a double). *)
Definition zeroInitialDelay : DelaySettings :=
  {| doubleInitialDelayMs := S754_zero false;
     doubleMaxDelayMs := doubleOf 30000 0;
     doubleBackoffMultiplier := doubleOf 2 0;
     doubleJitterFraction := doubleOf 7205759403792794 (-56) |}.

(** ** The retry decision *)

Lemma prefix_append (needle haystack : string) :
  String.prefix needle haystack = true
  <-> exists rest : string, haystack = (needle ++ rest)%string.
Proof.
  revert haystack.
  induction needle as [|a needle IH]; intros haystack.
  - split; [intros _; exists haystack; reflexivity|].
    intros _. destruct haystack; reflexivity.
  - destruct haystack as [|b haystack]; simpl.
    + split; [discriminate|]. intros [rest H]. discriminate H.
    + destruct (Ascii.ascii_dec a b) as [->|Hab].
      * rewrite IH. split; intros [rest H]; exists rest.
        -- now rewrite H.
        -- now injection H.
      * split; [discriminate|].
        intros [rest H]. injection H as H1 _. now elim Hab.
Qed.

Lemma includes_unfold (haystack needle : string) :
  JS.includes haystack needle
  = String.prefix needle haystack
    || match haystack with
       | EmptyString => false
       | String _ rest => JS.includes rest needle
       end.
Proof. destruct haystack; reflexivity. Qed.

Lemma includes_Substring (haystack needle : string) :
  JS.includes haystack needle = true <-> Substring needle haystack.
Proof.
  unfold Substring.
  induction haystack as [|c haystack IH]; rewrite includes_unfold;
    rewrite orb_true_iff, prefix_append.
  - split.
    + intros [[rest H]|H]; [|discriminate].
      exists EmptyString, rest. exact H.
    + intros [before [after H]]. left.
      destruct before; [|discriminate H].
      exists after. exact H.
  - rewrite IH. split.
    + intros [[rest H]|[before [after H]]].
      * exists EmptyString, rest. exact H.
      * exists (String c before), after. simpl. now rewrite H.
    + intros [before [after H]].
      destruct before as [|c' before]; simpl in H.
      * left. exists after. exact H.
      * right. injection H as _ H. exists before, after. exact H.
Qed.

Lemma errorCode_failureText (e : Failure) :
  JS.orElse (code e) (JS.orElse (Some (message e)) EmptyString) = failureText e.
Proof.
  unfold failureText, JS.orElse, JS.truthyString.
  assert (Hmsg : (if negb (String.eqb (message e) EmptyString)
                  then message e else EmptyString) = message e).
  { destruct (String.eqb_spec (message e) EmptyString) as [E|E]; simpl; congruence. }
  destruct (code e) as [c|]; [|exact Hmsg].
  destruct (String.eqb c EmptyString); simpl; [exact Hmsg|reflexivity].
Qed.

Lemma arrayIncludes_In (xs : list Z) (x : Z) :
  JS.arrayIncludes xs x = true <-> In x xs.
Proof.
  unfold JS.arrayIncludes. rewrite existsb_exists. split.
  - intros [y [Hy E]]. apply Z.eqb_eq in E. now subst.
  - intros H. exists x. split; [exact H|apply Z.eqb_refl].
Qed.

Lemma shouldRetry_within_budget (config : RetryConfig) (statusCode : option Z)
    (error : option Failure) (attemptNumber : Z) :
  shouldRetry config statusCode error attemptNumber = true ->
  attemptNumber < maxRetries config.
Proof.
  unfold shouldRetry.
  destruct (Z.geb_spec attemptNumber (maxRetries config)); [discriminate|lia].
Qed.

Lemma shouldRetry_status_listed (config : RetryConfig) (s : Z)
    (attemptNumber : Z) :
  attemptNumber < maxRetries config ->
  s <> 0 ->
  In s (retryableStatusCodes config) ->
  shouldRetry config (Some s) None attemptNumber = true.
Proof.
  intros Hbudget Hs Hin. unfold shouldRetry, JS.truthyNumber.
  destruct (Z.geb_spec attemptNumber (maxRetries config)); [lia|].
  destruct (Z.eqb_spec s 0); [contradiction|]. simpl.
  now apply arrayIncludes_In.
Qed.

Lemma shouldRetry_failure_listed (config : RetryConfig)
    (statusCode : option Z) (e : Failure) (attemptNumber : Z) (marker : string) :
  attemptNumber < maxRetries config ->
  In marker (retryableErrors config) ->
  Substring marker (failureText e) ->
  shouldRetry config statusCode (Some e) attemptNumber = true.
Proof.
  intros Hbudget Hin Hsub. unfold shouldRetry, JS.some.
  destruct (Z.geb_spec attemptNumber (maxRetries config)); [lia|].
  cbv zeta. rewrite errorCode_failureText. apply existsb_exists.
  exists marker. split; [exact Hin|now apply includes_Substring].
Qed.

(** C1. Once the retry budget is used up ([attemptNumber >= maxRetries]),
    [shouldRetry] answers [false] whatever the status code and the failure
    are: present or absent, retryable or not.  The answer is fixed by the
    budget test alone, so a failure on the last permitted attempt is never
    classified retryable. *)
Theorem shouldRetry_budget_exhausted (config : RetryConfig)
    (statusCode : option Z) (error : option Failure) (attemptNumber : Z) :
  attemptNumber >= maxRetries config ->
  shouldRetry config statusCode error attemptNumber = false.
Proof.
  intros H. unfold shouldRetry.
  destruct (Z.geb_spec attemptNumber (maxRetries config)); [reflexivity|lia].
Qed.

Lemma shouldRetry_budget_exhausted_witness :
  shouldRetry (newRetryConfig noOptions) (Some 503)
    (Some (mkFailure (Some "ECONNREFUSED"%string) "connect failed")) 3 = false.
Proof.
  apply shouldRetry_budget_exhausted. simpl. lia.
Defined.

(** C4 fails as stated: a status code of [0] is falsy, so the test
    [if (statusCode)] treats it as absent and the answer is [false] even
    when [0] is listed in [retryableStatusCodes]. *)
Lemma shouldRetry_status_zero_counterexample :
  0 < maxRetries zeroStatusConfig
  /\ In 0 (retryableStatusCodes zeroStatusConfig)
  /\ shouldRetry zeroStatusConfig (Some 0) None 0 = false
  /\ ~ (shouldRetry zeroStatusConfig (Some 0) None 0 = true
        <-> In 0 (retryableStatusCodes zeroStatusConfig)).
Proof.
  simpl. repeat split; try lia; try (left; reflexivity).
  intros [_ H]. specialize (H (or_introl eq_refl)). discriminate H.
Qed.

(** C4, amended. While the budget is not used up, with no failure passed
    and a status code other than [0], [shouldRetry] answers [true] exactly
    when the status is listed in [retryableStatusCodes]. *)
Theorem shouldRetry_status_membership (config : RetryConfig) (s : Z)
    (attemptNumber : Z) :
  attemptNumber < maxRetries config ->
  s <> 0 ->
  (shouldRetry config (Some s) None attemptNumber = true
   <-> In s (retryableStatusCodes config)).
Proof.
  intros Hbudget Hs. unfold shouldRetry, JS.truthyNumber.
  destruct (Z.geb_spec attemptNumber (maxRetries config)); [lia|].
  destruct (Z.eqb_spec s 0); [contradiction|]. simpl.
  apply arrayIncludes_In.
Qed.

Lemma shouldRetry_status_membership_witness :
  shouldRetry (newRetryConfig noOptions) (Some 503) None 0 = true
  <-> In 503 (retryableStatusCodes (newRetryConfig noOptions)).
Proof.
  apply shouldRetry_status_membership; simpl; lia.
Defined.

(** C5. While the budget is not used up and a failure is passed,
    [shouldRetry] answers [true] exactly when some configured marker
    occurs, character for character, as a substring of the failure's code,
    or of its message when the code is absent or empty. *)
Theorem shouldRetry_failure_marker (config : RetryConfig)
    (statusCode : option Z) (e : Failure) (attemptNumber : Z) :
  attemptNumber < maxRetries config ->
  (shouldRetry config statusCode (Some e) attemptNumber = true
   <-> exists marker : string,
         In marker (retryableErrors config)
         /\ Substring marker (failureText e)).
Proof.
  intros Hbudget. unfold shouldRetry, JS.some.
  destruct (Z.geb_spec attemptNumber (maxRetries config)); [lia|].
  cbv zeta. rewrite errorCode_failureText, existsb_exists.
  split; intros [marker [Hin Hsub]]; exists marker; split; trivial;
    now apply includes_Substring.
Qed.

Lemma shouldRetry_failure_marker_witness :
  shouldRetry (newRetryConfig noOptions) None
    (Some (mkFailure None "connect ECONNREFUSED 127.0.0.1:80")) 0 = true
  <-> exists marker : string,
        In marker (retryableErrors (newRetryConfig noOptions))
        /\ Substring marker
             (failureText (mkFailure None "connect ECONNREFUSED 127.0.0.1:80")).
Proof.
  apply shouldRetry_failure_marker. simpl. lia.
Defined.

(** ** The backoff delay *)

Local Open Scope Q_scope.

Lemma calculateDelay_draw (config : RetryConfig) (attemptNumber : Z) (w : World) :
  fst (calculateDelay config attemptNumber w)
  = delayFromDraw config attemptNumber (entropy w (randomCalls w)).
Proof. reflexivity. Qed.

(** In exact arithmetic the delay is a non-negative integer of at most
    [maxDelayMs * (1 + jitterFraction)]. *)
Lemma delayFromDraw_bounds (config : RetryConfig) (n : Z) (r : Q) :
  0 <= initialDelayMs config ->
  0 <= maxDelayMs config ->
  0 < backoffMultiplier config ->
  0 <= jitterFraction config <= 1 ->
  0 <= r < 1 ->
  (0 <= delayFromDraw config n r)%Z
  /\ inject_Z (delayFromDraw config n r)
     <= maxDelayMs config * (1 + jitterFraction config).
Proof.
  intros Hinit Hmax Hmult [Hj0 Hj1] [Hr0 Hr1].
  unfold delayFromDraw.
  set (c := Qmin _ _).
  assert (Hc0 : 0 <= c).
  { apply Q.min_glb; [|exact Hmax].
    apply Qmult_le_0_compat; [exact Hinit|].
    apply Qpower_0_le. now apply Qlt_le_weak. }
  assert (HcM : c <= maxDelayMs config) by apply Q.le_min_r.
  set (j := jitterFraction config) in *.
  set (m := maxDelayMs config) in *.
  split; [apply Z.le_max_l|].
  assert (Hup : c + (r - (1 # 2)) * (2 # 1) * (c * j) <= m * (1 + j)).
  { assert (Hk : 0 <= c * j) by (apply Qmult_le_0_compat; assumption).
    assert (H1 : (r - (1 # 2)) * (2 # 1) * (c * j) <= 1 * (c * j)).
    { apply Qmult_le_compat_r; [lra|exact Hk]. }
    assert (H2 : c * (1 + j) <= m * (1 + j)).
    { apply Qmult_le_compat_r; [exact HcM|lra]. }
    lra. }
  assert (Hm : 0 <= m * (1 + j)).
  { apply Qmult_le_0_compat; lra. }
  destruct (Z.max_spec 0 (Qfloor (c + (r - (1 # 2)) * (2 # 1) * (c * j)))) as [[_ E]|[_ E]];
    rewrite E.
  - eapply Qle_trans; [apply Qfloor_le|exact Hup].
  - exact Hm.
Qed.

Lemma delayFromDraw_no_jitter (config : RetryConfig) (n : Z) (r : Q) :
  jitterFraction config == 0 ->
  delayFromDraw config n r
  = Z.max 0 (Qfloor (Qmin (initialDelayMs config * backoffMultiplier config ^ n)
                          (maxDelayMs config))).
Proof.
  intros Hj. unfold delayFromDraw. cbv zeta.
  f_equal. apply Qfloor_comp. rewrite Hj. ring.
Qed.

Local Close Scope Q_scope.

Lemma doubleMul_nan_r (x : double) : doubleMul x S754_nan = S754_nan.
Proof. destruct x; reflexivity. Qed.

(** C6 does not hold of the code.  On doubles, with [initialDelayMs = 0]
    and a power [backoffMultiplier ^ attemptNumber] that overflows to
    [Infinity], the product [0 * Infinity] is [NaN] and [calculateDelay]
    returns [NaN], for every cap, jitter fraction and random draw: not a
    non-negative integer in the stated interval. *)
Theorem calculateDelayDouble_not_a_number
    (mathPow : double -> double -> double) (settings : DelaySettings)
    (attemptNumber random : double) :
  doubleInitialDelayMs settings = S754_zero false ->
  mathPow (doubleBackoffMultiplier settings) attemptNumber
  = S754_infinity false ->
  calculateDelayDouble mathPow settings attemptNumber random = S754_nan.
Proof.
  intros Hinitial Hpow. unfold calculateDelayDouble.
  rewrite Hinitial, Hpow. cbv zeta.
  change (doubleMul (S754_zero false) (S754_infinity false)) with S754_nan.
  change (mathMin S754_nan (doubleMaxDelayMs settings)) with S754_nan.
  change (doubleMul S754_nan (doubleJitterFraction settings)) with S754_nan.
  rewrite doubleMul_nan_r.
  reflexivity.
Qed.

(** The failing input: [new RetryConfig({initialDelayMs: 0})] and
    [calculateDelay(1024)], with a draw of 0.5. *)
Lemma calculateDelayDouble_not_a_number_witness :
  calculateDelayDouble integerPow zeroInitialDelay (doubleOf 1024 0)
                       (doubleOf 1 (-1))
  = S754_nan.
Proof.
  apply calculateDelayDouble_not_a_number.
  - reflexivity.
  - vm_compute. reflexivity.
Defined.

(** The failing input meets every condition of C6: the initial delay and
    the cap are not negative, the multiplier is positive, the jitter
    fraction and the draw are in range, the attempt number is not
    negative. *)
Example zeroInitialDelay_in_range :
  SFleb (S754_zero false) (doubleInitialDelayMs zeroInitialDelay) = true
  /\ SFleb (S754_zero false) (doubleMaxDelayMs zeroInitialDelay) = true
  /\ SFltb (S754_zero false) (doubleBackoffMultiplier zeroInitialDelay) = true
  /\ SFleb (S754_zero false) (doubleJitterFraction zeroInitialDelay) = true
  /\ SFleb (doubleJitterFraction zeroInitialDelay) (doubleOf 1 0) = true
  /\ SFleb (S754_zero false) (doubleOf 1024 0) = true
  /\ SFleb (S754_zero false) (doubleOf 1 (-1)) = true
  /\ SFltb (doubleOf 1 (-1)) (doubleOf 1 0) = true.
Proof. repeat split. Qed.

Local Open Scope Q_scope.

(** C9. For the policy with [maxRetries = 3], [initialDelayMs = 1000],
    [backoffMultiplier = 2], [maxDelayMs = 30000] and [jitterFraction = 0],
    [calculateDelay] returns 1000, 2000, 4000 for the attempt numbers 0, 1,
    2 and the cap 30000 for attempt number 5, whatever the random draw. *)
Theorem calculateDelay_scenario (codes : list Z) (markers : list string)
    (w : World) :
  fst (calculateDelay (scenarioConfig codes markers) 0 w) = 1000%Z
  /\ fst (calculateDelay (scenarioConfig codes markers) 1 w) = 2000%Z
  /\ fst (calculateDelay (scenarioConfig codes markers) 2 w) = 4000%Z
  /\ fst (calculateDelay (scenarioConfig codes markers) 5 w) = 30000%Z.
Proof.
  rewrite !calculateDelay_draw.
  rewrite !delayFromDraw_no_jitter by reflexivity.
  repeat split; vm_compute; reflexivity.
Qed.

Local Close Scope Q_scope.

(** ** The attempt loop *)

Section LoopFacts.

Variable config : RetryConfig.
Variable url : string.
Variable net : string -> nat -> FetchResult.
Variable ent : nat -> Q.


Lemma schedule_succ (k : nat) :
  schedule config url ent (S (S k))
  = ((schedule config url ent (S k)
      ++ [EvSleep (delayBefore config ent k)]) ++ [EvFetch url])%list.
Proof. cbn [schedule]. now rewrite <- !app_assoc. Qed.

Lemma attemptLoop_step (fuel k : nat) (lastError : option Failure)
    (lastResponse : option Response) :
  Z.of_nat k <= maxRetries config ->
  attemptLoop config url (S fuel) (Z.of_nat k) lastError lastResponse (worldAfter config url net ent k)
  = if retried config url net k
    then attemptLoop config url fuel (Z.of_nat (S k))
           match net url k with
           | Rejected error => Some error
           | Resolved _ => lastError
           end
           match net url k with
           | Resolved response => Some response
           | Rejected _ => lastResponse
           end
           (worldAfter config url net ent (S k))
    else (Exited (settle (net url k)), worldAfter config url net ent (S k)).
Proof.
  intros Hk. cbn [attemptLoop].
  destruct (Z.leb_spec (Z.of_nat k) (maxRetries config)) as [_|Hlt]; [|lia].
  unfold retried, bind.
  replace (Z.of_nat k + 1) with (Z.of_nat (S k)) by lia.
  destruct k as [|k].
  - cbn. destruct (net url 0%nat) as [response|error]; cbn.
    + destruct (ok response); cbn; [reflexivity|].
      destruct (shouldRetry config (Some (status response)) None 0); reflexivity.
    + destruct (shouldRetry config None (Some error) 0); reflexivity.
  - destruct (Z.ltb_spec 0 (Z.of_nat (S k))) as [_|Hle]; [|lia].
    replace (Z.of_nat (S k) - 1) with (Z.of_nat k) by lia.
    unfold calculateDelay, bind, mathRandom, ret, sleep, fetch, record, worldAfter.
    cbn [network entropy fetchCalls randomCalls trace Nat.pred].
    change (Z.max 0 _) with (delayBefore config ent k).
    rewrite <- schedule_succ.
    destruct (net url (S k)) as [response|error]; cbn [settle].
    + destruct (ok response); cbn [negb andb]; [reflexivity|].
      destruct (shouldRetry config (Some (status response)) None (Z.of_nat (S k)));
        reflexivity.
    + destruct (shouldRetry config None (Some error) (Z.of_nat (S k))); reflexivity.
Qed.


Lemma attemptLoop_settles (d : nat) :
  forall (k fuel : nat) (lastError : option Failure)
         (lastResponse : option Response),
    Z.of_nat (k + d) <= maxRetries config ->
    (forall j : nat, (k <= j < k + d)%nat -> retried config url net j = true) ->
    retried config url net (k + d) = false ->
    (d < fuel)%nat ->
    attemptLoop config url fuel (Z.of_nat k) lastError lastResponse
      (worldAfter config url net ent k)
    = (Exited (settle (net url (k + d))), worldAfter config url net ent (S (k + d))).
Proof.
  induction d as [|d IH]; intros k fuel lastError lastResponse Hle Hpre Hstop Hfuel;
    (destruct fuel as [|fuel]; [lia|]); rewrite attemptLoop_step by lia.
  - rewrite Nat.add_0_r in *. now rewrite Hstop.
  - rewrite Hpre by lia.
    replace (k + S d)%nat with (S k + d)%nat in * by lia.
    apply IH; try assumption; try lia.
    intros j Hj. apply Hpre. lia.
Qed.

Lemma first_stop (p : nat -> bool) (n : nat) :
  p n = false ->
  exists k : nat,
    (k <= n)%nat /\ (forall j : nat, (j < k)%nat -> p j = true) /\ p k = false.
Proof.
  induction n as [n IH] using lt_wf_ind. intros Hn.
  destruct (forallb p (seq 0 n)) eqn:Hall.
  - exists n. split; [lia|]. split; [|exact Hn].
    intros j Hj. rewrite forallb_forall in Hall. apply Hall.
    apply in_seq. lia.
  - assert (Hex : exists j, (j < n)%nat /\ p j = false).
    { clear -Hall. induction n as [|n IHn]; [discriminate|].
      rewrite seq_S, forallb_app in Hall. cbn in Hall.
      destruct (forallb p (seq 0 n)).
      - exists n. split; [lia|]. destruct (p n); [discriminate|reflexivity].
      - destruct (IHn eq_refl) as [j [Hj Hp]]. exists j. split; [lia|exact Hp]. }
    destruct Hex as [j [Hj Hp]].
    destruct (IH j Hj Hp) as [k [Hk [Hpre Hstop]]].
    exists k. split; [lia|]. split; assumption.
Qed.

Lemma retried_within_budget (k : nat) :
  retried config url net k = true -> Z.of_nat k < maxRetries config.
Proof.
  unfold retried. destruct (net url k) as [response|error].
  - rewrite andb_true_iff. intros [_ H]. now apply shouldRetry_within_budget in H.
  - apply shouldRetry_within_budget.
Qed.

Lemma retried_last : 
  0 <= maxRetries config ->
  retried config url net (Z.to_nat (maxRetries config)) = false.
Proof.
  intros H. destruct (retried config url net (Z.to_nat (maxRetries config))) eqn:E;
    [|reflexivity].
  apply retried_within_budget in E. lia.
Qed.

End LoopFacts.

(** ** Whole runs of [fetchWithRetry] *)

Section RunFacts.

Variable config : RetryConfig.
Variable url : string.
Variable net : string -> nat -> FetchResult.
Variable ent : nat -> Q.

(** A run whose attempts [0 .. k-1] are retried and whose attempt [k] is
    not leaves the loop from inside its body, with the answer of attempt
    [k], after exactly [k + 1] attempts. *)
Lemma attemptLoop_run (k : nat) :
  Z.of_nat k <= maxRetries config ->
  (forall j : nat, (j < k)%nat -> retried config url net j = true) ->
  retried config url net k = false ->
  attemptLoop config url (Z.to_nat (maxRetries config + 1)) 0 None None
    (initialWorld net ent)
  = (Exited (settle (net url k)), worldAfter config url net ent (S k)).
Proof.
  intros Hk Hpre Hstop.
  apply (attemptLoop_settles config url net ent k 0); cbn [Nat.add];
    try assumption; try lia.
  intros j Hj. apply Hpre. lia.
Qed.

Lemma fetchWithRetry_run (k : nat) :
  Z.of_nat k <= maxRetries config ->
  (forall j : nat, (j < k)%nat -> retried config url net j = true) ->
  retried config url net k = false ->
  fetchWithRetry url (Some config) (initialWorld net ent)
  = (Some (settle (net url k)), worldAfter config url net ent (S k)).
Proof.
  intros Hk Hpre Hstop. unfold fetchWithRetry, bind. cbn [configOrDefault].
  now rewrite (attemptLoop_run k Hk Hpre Hstop).
Qed.

(** With a negative [maxRetries] the loop body never runs. *)
Lemma attemptLoop_no_attempt :
  maxRetries config < 0 ->
  attemptLoop config url (Z.to_nat (maxRetries config + 1)) 0 None None
    (initialWorld net ent)
  = (FellThrough None None, initialWorld net ent).
Proof.
  intros H. destruct (Z.to_nat (maxRetries config + 1)); cbn [attemptLoop];
    destruct (Z.leb_spec 0 (maxRetries config)); try lia; reflexivity.
Qed.

(** Every run with [maxRetries >= 0] stops at a first attempt that is not
    retried, and that attempt is within the budget. *)
Lemma run_stops :
  0 <= maxRetries config ->
  exists k : nat,
    Z.of_nat k <= maxRetries config
    /\ (forall j : nat, (j < k)%nat -> retried config url net j = true)
    /\ retried config url net k = false.
Proof.
  intros H.
  destruct (first_stop (retried config url net) (Z.to_nat (maxRetries config))
              (retried_last config url net H)) as [k [Hk Hrest]].
  exists k. split; [lia|exact Hrest].
Qed.

Lemma attempts_app (xs ys : list Event) :
  attempts (xs ++ ys) = (attempts xs + attempts ys)%nat.
Proof. unfold attempts. now rewrite filter_app, length_app. Qed.

Lemma sleeps_app (xs ys : list Event) :
  sleeps (xs ++ ys) = (sleeps xs + sleeps ys)%nat.
Proof. unfold sleeps. now rewrite filter_app, length_app. Qed.

Lemma attempts_schedule (n : nat) :
  attempts (schedule config url ent n) = n.
Proof.
  induction n as [|n IH]; [reflexivity|].
  cbn [schedule]. rewrite !attempts_app, IH.
  destruct n; cbn; lia.
Qed.

Lemma sleeps_schedule (n : nat) :
  sleeps (schedule config url ent n) = Nat.pred n.
Proof.
  induction n as [|n IH]; [reflexivity|].
  cbn [schedule]. rewrite !sleeps_app, IH.
  destruct n; cbn; lia.
Qed.

Lemma length_schedule (n : nat) :
  List.length (schedule config url ent (S n)) = S (2 * n).
Proof.
  induction n as [|n IH]; [reflexivity|].
  rewrite schedule_succ, !length_app, IH. cbn. lia.
Qed.

(** Attempt [i] is event [2 i] of the schedule; for [i > 0] the event just
    before it is the sleep of [calculateDelay (i - 1)]. *)
Lemma schedule_fetch (n i : nat) :
  (i < n)%nat ->
  nth_error (schedule config url ent n) (2 * i) = Some (EvFetch url).
Proof.
  induction n as [|n IH]; [lia|]. intros Hi.
  destruct n as [|n]; [replace i with 0%nat by lia; reflexivity|].
  rewrite schedule_succ, <- app_assoc.
  destruct (Nat.eq_dec i (S n)) as [->|Hne].
  - rewrite nth_error_app2; rewrite length_schedule; [|lia].
    replace (2 * S n - S (2 * n))%nat with 1%nat by lia. reflexivity.
  - rewrite nth_error_app1; [apply IH; lia|].
    rewrite length_schedule. lia.
Qed.

Lemma schedule_sleep (n i : nat) :
  (S i < n)%nat ->
  nth_error (schedule config url ent n) (S (2 * i))
  = Some (EvSleep (delayBefore config ent i)).
Proof.
  induction n as [|n IH]; [lia|]. intros Hi.
  destruct n as [|n]; [lia|].
  rewrite schedule_succ, <- app_assoc.
  destruct (Nat.eq_dec i n) as [->|Hne].
  - rewrite nth_error_app2; rewrite length_schedule; [|lia].
    replace (S (2 * n) - S (2 * n))%nat with 0%nat by lia. reflexivity.
  - rewrite nth_error_app1; [apply IH; lia|].
    rewrite length_schedule. lia.
Qed.

End RunFacts.

Lemma attemptLoop_fuel (config : RetryConfig) (url : string)
    (net : string -> nat -> FetchResult) (ent : nat -> Q) :
  fst (attemptLoop config url (Z.to_nat (maxRetries config + 1)) 0 None None
         (initialWorld net ent)) <> OutOfFuel.
Proof.
  destruct (Z.lt_ge_cases (maxRetries config) 0) as [Hneg|Hpos].
  - rewrite attemptLoop_no_attempt by exact Hneg. discriminate.
  - destruct (run_stops config url net Hpos) as [k [Hk [Hpre Hstop]]].
    rewrite (attemptLoop_run config url net ent k Hk Hpre Hstop). discriminate.
Qed.

(** [fetchWithRetry] always completes: with a return or with a throw. *)
Lemma fetchWithRetry_total (config : RetryConfig) (url : string)
    (net : string -> nat -> FetchResult) (ent : nat -> Q) :
  exists c : Completion,
    fst (fetchWithRetry url (Some config) (initialWorld net ent)) = Some c.
Proof.
  destruct (Z.lt_ge_cases (maxRetries config) 0) as [Hneg|Hpos].
  - unfold fetchWithRetry, bind. cbn [configOrDefault].
    rewrite attemptLoop_no_attempt by exact Hneg. cbn. eauto.
  - destruct (run_stops config url net Hpos) as [k [Hk [Hpre Hstop]]].
    rewrite (fetchWithRetry_run config url net ent k Hk Hpre Hstop). cbn. eauto.
Qed.

(** With no policy passed, the default policy is used. *)
Lemma fetchWithRetry_default_config (url : string) :
  fetchWithRetry url None = fetchWithRetry url (Some (newRetryConfig noOptions)).
Proof. reflexivity. Qed.

(** C2. With [maxRetries = 2] and 503 listed as retryable, if every call of
    the attempt capability answers with status 503, [fetchWithRetry] makes
    exactly three attempts, sleeps before the second and before the third,
    and completes by returning the third response: a normal return, not a
    throw. *)
Theorem fetchWithRetry_always_503 (config : RetryConfig) (url : string)
    (net : string -> nat -> FetchResult) (ent : nat -> Q) :
  maxRetries config = 2 ->
  In 503 (retryableStatusCodes config) ->
  (forall k : nat,
      exists response : Response,
        net url k = Resolved response /\ status response = 503) ->
  exists final : Response,
    net url 2%nat = Resolved final
    /\ fst (fetchWithRetry url (Some config) (initialWorld net ent))
       = Some (Returned final)
    /\ trace (snd (fetchWithRetry url (Some config) (initialWorld net ent)))
       = [EvFetch url;
          EvSleep (delayFromDraw config 0 (ent 0%nat));
          EvFetch url;
          EvSleep (delayFromDraw config 1 (ent 1%nat));
          EvFetch url]
    /\ attempts (trace (snd (fetchWithRetry url (Some config)
                               (initialWorld net ent)))) = 3%nat.
Proof.
  intros Hmax Hlisted Hnet.
  assert (Hretried : forall j : nat, (j < 2)%nat -> retried config url net j = true).
  { intros j Hj. unfold retried.
    destruct (Hnet j) as [response [-> Hstatus]].
    unfold ok. rewrite Hstatus. cbn [Z.leb Z.compare Pos.compare Pos.compare_cont andb negb].
    apply shouldRetry_status_listed; [lia|lia|exact Hlisted]. }
  assert (Hstop : retried config url net 2 = false).
  { replace 2%nat with (Z.to_nat (maxRetries config)) by (rewrite Hmax; reflexivity).
    apply retried_last. lia. }
  destruct (Hnet 2%nat) as [final [Hfinal _]].
  exists final. split; [exact Hfinal|].
  rewrite (fetchWithRetry_run config url net ent 2) by (assumption || (cbn; lia)).
  rewrite Hfinal. cbn [fst snd settle trace worldAfter].
  split; [reflexivity|]. split; reflexivity.
Qed.

Lemma fetchWithRetry_always_503_witness :
  exists final : Response,
    always (Resolved serviceUnavailable) "https://example.test/" 2%nat
    = Resolved final
    /\ fst (fetchWithRetry "https://example.test/" (Some twoRetries)
              (initialWorld (always (Resolved serviceUnavailable))
                            (constantDraw (1 # 2))))
       = Some (Returned final)
    /\ trace (snd (fetchWithRetry "https://example.test/" (Some twoRetries)
                     (initialWorld (always (Resolved serviceUnavailable))
                                   (constantDraw (1 # 2)))))
       = [EvFetch "https://example.test/";
          EvSleep (delayFromDraw twoRetries 0 (constantDraw (1 # 2) 0%nat));
          EvFetch "https://example.test/";
          EvSleep (delayFromDraw twoRetries 1 (constantDraw (1 # 2) 1%nat));
          EvFetch "https://example.test/"]
    /\ attempts (trace (snd (fetchWithRetry "https://example.test/"
                               (Some twoRetries)
                               (initialWorld (always (Resolved serviceUnavailable))
                                             (constantDraw (1 # 2)))))) = 3%nat.
Proof.
  apply fetchWithRetry_always_503.
  - reflexivity.
  - simpl. tauto.
  - intros k. exists serviceUnavailable. split; reflexivity.
Defined.

(** C3. A transport failure that the policy does not retry is rethrown at
    once: the run ends with that failure, its last event is the failed
    attempt, so no sleep and no attempt follow it.  When every attempt
    raises a failure that carries a configured marker, the run makes
    exactly [maxRetries + 1] attempts and then throws the last failure. *)
Theorem fetchWithRetry_failures (config : RetryConfig) (url : string)
    (net : string -> nat -> FetchResult) (ent : nat -> Q) :
  0 <= maxRetries config ->
  (forall (k : nat) (e : Failure),
      (forall j : nat, (j < k)%nat -> retried config url net j = true) ->
      net url k = Rejected e ->
      shouldRetry config None (Some e) (Z.of_nat k) = false ->
      fst (fetchWithRetry url (Some config) (initialWorld net ent))
      = Some (Threw (ThrownFailure e))
      /\ trace (snd (fetchWithRetry url (Some config) (initialWorld net ent)))
         = schedule config url ent (S k)
      /\ attempts (trace (snd (fetchWithRetry url (Some config)
                                 (initialWorld net ent)))) = S k
      /\ sleeps (trace (snd (fetchWithRetry url (Some config)
                               (initialWorld net ent)))) = k)
  /\ ((forall k : nat,
          exists e : Failure,
            net url k = Rejected e
            /\ exists marker : string,
                 In marker (retryableErrors config)
                 /\ Substring marker (failureText e)) ->
      exists lastFailure : Failure,
        net url (Z.to_nat (maxRetries config)) = Rejected lastFailure
        /\ fst (fetchWithRetry url (Some config) (initialWorld net ent))
           = Some (Threw (ThrownFailure lastFailure))
        /\ Z.of_nat (attempts (trace (snd (fetchWithRetry url (Some config)
                                             (initialWorld net ent)))))
           = maxRetries config + 1).
Proof.
  intros Hmax. split.
  - intros k e Hpre Hnet Hno.
    assert (Hk : Z.of_nat k <= maxRetries config).
    { destruct k as [|k]; [exact Hmax|].
      assert (H := retried_within_budget config url net k (Hpre k (Nat.lt_succ_diag_r k))).
      lia. }
    assert (Hstop : retried config url net k = false).
    { unfold retried. now rewrite Hnet. }
    rewrite (fetchWithRetry_run config url net ent k Hk Hpre Hstop), Hnet.
    cbn [fst snd settle trace worldAfter].
    rewrite attempts_schedule, sleeps_schedule. repeat split.
  - intros Hall.
    assert (Hpre : forall j : nat,
               (j < Z.to_nat (maxRetries config))%nat ->
               retried config url net j = true).
    { intros j Hj. unfold retried.
      destruct (Hall j) as [e [-> [marker [Hin Hsub]]]].
      apply (shouldRetry_failure_listed config None e (Z.of_nat j) marker);
        [lia|exact Hin|exact Hsub]. }
    destruct (Hall (Z.to_nat (maxRetries config))) as [lastFailure [Hlast _]].
    exists lastFailure. split; [exact Hlast|].
    rewrite (fetchWithRetry_run config url net ent (Z.to_nat (maxRetries config)))
      by (try exact Hpre; try (apply retried_last; exact Hmax); lia).
    rewrite Hlast. cbn [fst snd settle trace worldAfter].
    rewrite attempts_schedule. split; [reflexivity|lia].
Qed.

Lemma fetchWithRetry_failures_witness :
  (fst (fetchWithRetry "https://example.test/" (Some (newRetryConfig noOptions))
          (initialWorld (always (Rejected badDescriptor)) (constantDraw (1 # 2))))
   = Some (Threw (ThrownFailure badDescriptor))
   /\ trace (snd (fetchWithRetry "https://example.test/"
                    (Some (newRetryConfig noOptions))
                    (initialWorld (always (Rejected badDescriptor))
                                  (constantDraw (1 # 2)))))
      = [EvFetch "https://example.test/"])
  /\ (exists lastFailure : Failure,
        fst (fetchWithRetry "https://example.test/"
               (Some (newRetryConfig noOptions))
               (initialWorld (always (Rejected connectionRefused))
                             (constantDraw (1 # 2))))
        = Some (Threw (ThrownFailure lastFailure))
        /\ Z.of_nat (attempts (trace (snd (fetchWithRetry "https://example.test/"
                                             (Some (newRetryConfig noOptions))
                                             (initialWorld
                                                (always (Rejected connectionRefused))
                                                (constantDraw (1 # 2)))))))
           = 4).
Proof.
  assert (Hmax : 0 <= maxRetries (newRetryConfig noOptions)) by (simpl; lia).
  split.
  - destruct (fetchWithRetry_failures (newRetryConfig noOptions)
                "https://example.test/" (always (Rejected badDescriptor))
                (constantDraw (1 # 2)) Hmax) as [Hstop _].
    destruct (Hstop 0%nat badDescriptor) as [Hresult [Htrace _]].
    + intros j Hj. lia.
    + reflexivity.
    + reflexivity.
    + split; [exact Hresult|exact Htrace].
  - destruct (fetchWithRetry_failures (newRetryConfig noOptions)
                "https://example.test/" (always (Rejected connectionRefused))
                (constantDraw (1 # 2)) Hmax) as [_ Hall].
    destruct Hall as [lastFailure [_ [Hresult Hcount]]].
    + intros k. exists connectionRefused. split; [reflexivity|].
      exists "ECONNREFUSED"%string. split; [left; reflexivity|].
      exists EmptyString, EmptyString. reflexivity.
    + exists lastFailure. split; [exact Hresult|exact Hcount].
Defined.

(** C7. The events of every run are the schedule of its attempts: attempt
    [i] is event [2 i]; nothing precedes attempt 0; for [i > 0] the event
    just before attempt [i] is a sleep of [calculateDelay (i - 1)], the
    delay computed from the index of the previous attempt. *)
Theorem fetchWithRetry_delay_schedule (config : RetryConfig) (url : string)
    (net : string -> nat -> FetchResult) (ent : nat -> Q) :
  exists n : nat,
    trace (snd (fetchWithRetry url (Some config) (initialWorld net ent)))
    = schedule config url ent n
    /\ attempts (trace (snd (fetchWithRetry url (Some config)
                               (initialWorld net ent)))) = n
    /\ (forall i : nat,
           (i < n)%nat ->
           nth_error (trace (snd (fetchWithRetry url (Some config)
                                    (initialWorld net ent)))) (2 * i)
           = Some (EvFetch url))
    /\ (forall i : nat,
           (0 < i < n)%nat ->
           nth_error (trace (snd (fetchWithRetry url (Some config)
                                    (initialWorld net ent)))) (2 * i - 1)
           = Some (EvSleep (fst (calculateDelay config (Z.of_nat i - 1)
                                   (worldAfter config url net ent i))))).
Proof.
  assert (Hshape : exists n : nat,
             trace (snd (fetchWithRetry url (Some config) (initialWorld net ent)))
             = schedule config url ent n).
  { destruct (Z.lt_ge_cases (maxRetries config) 0) as [Hneg|Hpos].
    - exists 0%nat. unfold fetchWithRetry, bind. cbn [configOrDefault].
      rewrite attemptLoop_no_attempt by exact Hneg. reflexivity.
    - destruct (run_stops config url net Hpos) as [k [Hk [Hpre Hstop]]].
      exists (S k).
      now rewrite (fetchWithRetry_run config url net ent k Hk Hpre Hstop). }
  destruct Hshape as [n Hn]. exists n. rewrite Hn.
  split; [reflexivity|]. split; [apply attempts_schedule|]. split.
  - intros i Hi. now apply schedule_fetch.
  - intros i Hi. destruct i as [|i]; [lia|].
    replace (2 * S i - 1)%nat with (S (2 * i)) by lia.
    rewrite schedule_sleep by lia.
    rewrite calculateDelay_draw. cbn [worldAfter entropy randomCalls Nat.pred].
    unfold delayBefore. do 3 f_equal. lia.
Qed.

(** C8. If the first attempt answers with a 2xx status, [fetchWithRetry]
    returns that response at once: one attempt, no sleep.  It is the only
    success exit of the loop: in any run, a returned response is either a
    2xx response or one the policy declined to retry. *)
Theorem fetchWithRetry_first_success (config : RetryConfig) (url : string)
    (net : string -> nat -> FetchResult) (ent : nat -> Q)
    (response : Response) :
  0 <= maxRetries config ->
  net url 0%nat = Resolved response ->
  200 <= status response <= 299 ->
  fst (fetchWithRetry url (Some config) (initialWorld net ent))
  = Some (Returned response)
  /\ trace (snd (fetchWithRetry url (Some config) (initialWorld net ent)))
     = [EvFetch url]
  /\ attempts (trace (snd (fetchWithRetry url (Some config)
                             (initialWorld net ent)))) = 1%nat
  /\ sleeps (trace (snd (fetchWithRetry url (Some config)
                           (initialWorld net ent)))) = 0%nat
  /\ (forall (net' : string -> nat -> FetchResult) (ent' : nat -> Q)
             (returned : Response),
         fst (fetchWithRetry url (Some config) (initialWorld net' ent'))
         = Some (Returned returned) ->
         exists k : nat,
           net' url k = Resolved returned
           /\ attempts (trace (snd (fetchWithRetry url (Some config)
                                      (initialWorld net' ent')))) = S k
           /\ (200 <= status returned <= 299
               \/ shouldRetry config (Some (status returned)) None (Z.of_nat k)
                  = false)).
Proof.
  intros Hmax Hnet Hstatus.
  assert (Hstop : retried config url net 0 = false).
  { unfold retried, ok. rewrite Hnet.
    destruct (Z.leb_spec 200 (status response)); [|lia].
    destruct (Z.leb_spec (status response) 299); [|lia]. reflexivity. }
  rewrite (fetchWithRetry_run config url net ent 0)
    by (try exact Hstop; try exact Hmax; intros j Hj; lia).
  rewrite Hnet. cbn [fst snd settle trace worldAfter].
  repeat (split; [reflexivity|]).
  intros net' ent' returned.
  destruct (run_stops config url net' Hmax) as [k [Hk [Hpre Hk']]].
  rewrite (fetchWithRetry_run config url net' ent' k Hk Hpre Hk').
  cbn [fst snd trace worldAfter]. intros Hreturned.
  exists k. rewrite attempts_schedule.
  unfold retried in Hk'.
  destruct (net' url k) as [r|e]; cbn [settle] in Hreturned; [|discriminate].
  injection Hreturned as ->.
  split; [reflexivity|]. split; [reflexivity|].
  apply andb_false_iff in Hk'. destruct Hk' as [Hok|Hno]; [left|right; exact Hno].
  apply negb_false_iff in Hok. unfold ok in Hok.
  apply andb_true_iff in Hok. destruct Hok as [H1 H2].
  apply Z.leb_le in H1, H2. lia.
Qed.

Lemma fetchWithRetry_first_success_witness :
  fst (fetchWithRetry "https://example.test/" (Some (newRetryConfig noOptions))
         (initialWorld (always (Resolved okResponse)) (constantDraw (1 # 2))))
  = Some (Returned okResponse)
  /\ trace (snd (fetchWithRetry "https://example.test/"
                   (Some (newRetryConfig noOptions))
                   (initialWorld (always (Resolved okResponse))
                                 (constantDraw (1 # 2)))))
     = [EvFetch "https://example.test/"].
Proof.
  destruct (fetchWithRetry_first_success (newRetryConfig noOptions)
              "https://example.test/" (always (Resolved okResponse))
              (constantDraw (1 # 2)) okResponse)
    as [Hresult [Htrace _]].
  - simpl. lia.
  - reflexivity.
  - simpl. lia.
  - split; [exact Hresult|exact Htrace].
Defined.

(** C10. With [maxRetries >= 0], every run leaves the loop from inside its
    body, by the [return] or the [throw] of some attempt [k <= maxRetries]:
    [shouldRetry] is [false] on attempt [maxRetries], so that attempt's
    response is returned or its failure rethrown.  The loop never runs to
    completion, so the code after it is not executed. *)
Theorem fetchWithRetry_exits_inside_loop (config : RetryConfig) (url : string)
    (net : string -> nat -> FetchResult) (ent : nat -> Q) :
  0 <= maxRetries config ->
  (forall (statusCode : option Z) (error : option Failure),
      shouldRetry config statusCode error (maxRetries config) = false)
  /\ exists k : nat,
       Z.of_nat k <= maxRetries config
       /\ attemptLoop config url (Z.to_nat (maxRetries config + 1)) 0 None None
            (initialWorld net ent)
          = (Exited (settle (net url k)), worldAfter config url net ent (S k))
       /\ attempts (trace (worldAfter config url net ent (S k))) = S k
       /\ fst (fetchWithRetry url (Some config) (initialWorld net ent))
          = Some (settle (net url k)).
Proof.
  intros Hmax. split.
  - intros statusCode error. unfold shouldRetry.
    destruct (Z.geb_spec (maxRetries config) (maxRetries config)); [reflexivity|lia].
  - destruct (run_stops config url net Hmax) as [k [Hk [Hpre Hstop]]].
    exists k. split; [exact Hk|].
    split; [exact (attemptLoop_run config url net ent k Hk Hpre Hstop)|].
    split; [apply attempts_schedule|].
    now rewrite (fetchWithRetry_run config url net ent k Hk Hpre Hstop).
Qed.

Lemma fetchWithRetry_exits_inside_loop_witness :
  exists k : nat,
    Z.of_nat k <= maxRetries twoRetries
    /\ attemptLoop twoRetries "https://example.test/"
         (Z.to_nat (maxRetries twoRetries + 1)) 0 None None
         (initialWorld (always (Resolved serviceUnavailable))
                       (constantDraw (1 # 2)))
       = (Exited (settle (always (Resolved serviceUnavailable)
                            "https://example.test/" k)),
          worldAfter twoRetries "https://example.test/"
            (always (Resolved serviceUnavailable)) (constantDraw (1 # 2)) (S k)).
Proof.
  destruct (fetchWithRetry_exits_inside_loop twoRetries "https://example.test/"
              (always (Resolved serviceUnavailable)) (constantDraw (1 # 2)))
    as [_ [k [Hk [Hexit _]]]].
  - simpl. lia.
  - exists k. split; [exact Hk|exact Hexit].
Defined.

(** The marker match is character-exact: a lower-case code does not match
    the upper-case default markers. *)
Example shouldRetry_case_sensitive :
  shouldRetry (newRetryConfig noOptions) None
    (Some (mkFailure (Some "econnrefused"%string) "")) 0 = false.
Proof. reflexivity. Qed.

(** Scenario 2 of the specification, on the default status list. *)
Example shouldRetry_default_statuses :
  shouldRetry (newRetryConfig noOptions) (Some 404) None 0 = false
  /\ shouldRetry (newRetryConfig noOptions) (Some 503) None 0 = true.
Proof. split; reflexivity. Qed.

(** ** Further properties of the attempt loop *)

(** The shape of every run: either no attempt at all (negative budget), or
    the world after the first attempt that is not retried. *)
Lemma fetchWithRetry_shape (config : RetryConfig) (url : string)
    (net : string -> nat -> FetchResult) (ent : nat -> Q) :
  (maxRetries config < 0
   /\ fetchWithRetry url (Some config) (initialWorld net ent)
      = (Some (Threw (ThrownError "Fetch failed after all retries")),
         initialWorld net ent))
  \/ (exists k : nat,
        Z.of_nat k <= maxRetries config
        /\ (forall j : nat, (j < k)%nat -> retried config url net j = true)
        /\ retried config url net k = false
        /\ fetchWithRetry url (Some config) (initialWorld net ent)
           = (Some (settle (net url k)), worldAfter config url net ent (S k))).
Proof.
  destruct (Z.lt_ge_cases (maxRetries config) 0) as [Hneg|Hpos].
  - left. split; [exact Hneg|].
    unfold fetchWithRetry, bind. cbn [configOrDefault].
    now rewrite attemptLoop_no_attempt by exact Hneg.
  - right. destruct (run_stops config url net Hpos) as [k [Hk [Hpre Hstop]]].
    exists k. repeat (split; [assumption|]).
    exact (fetchWithRetry_run config url net ent k Hk Hpre Hstop).
Qed.

(** X1. A run never makes more than [maxRetries + 1] attempts (none when
    [maxRetries] is negative); it sleeps exactly once between two
    consecutive attempts, and draws one random number per sleep. *)
Theorem fetchWithRetry_attempt_budget (config : RetryConfig) (url : string)
    (net : string -> nat -> FetchResult) (ent : nat -> Q) :
  Z.of_nat (attempts (trace (snd (fetchWithRetry url (Some config)
                                    (initialWorld net ent)))))
  <= Z.max 0 (maxRetries config + 1)
  /\ sleeps (trace (snd (fetchWithRetry url (Some config)
                           (initialWorld net ent))))
     = Nat.pred (attempts (trace (snd (fetchWithRetry url (Some config)
                                         (initialWorld net ent)))))
  /\ fetchCalls (snd (fetchWithRetry url (Some config) (initialWorld net ent)))
     = attempts (trace (snd (fetchWithRetry url (Some config)
                               (initialWorld net ent))))
  /\ randomCalls (snd (fetchWithRetry url (Some config) (initialWorld net ent)))
     = sleeps (trace (snd (fetchWithRetry url (Some config)
                             (initialWorld net ent)))).
Proof.
  destruct (fetchWithRetry_shape config url net ent)
    as [[Hneg ->]|[k [Hk [_ [_ ->]]]]].
  - cbn. repeat split; lia.
  - cbn [snd trace worldAfter fetchCalls randomCalls].
    rewrite attempts_schedule, sleeps_schedule. repeat split; lia.
Qed.

(** X2. With a negative [maxRetries] no request is made at all: the run
    throws the error [Fetch failed after all retries] without a fetch or a
    sleep. *)
Theorem fetchWithRetry_negative_budget (config : RetryConfig) (url : string)
    (net : string -> nat -> FetchResult) (ent : nat -> Q) :
  maxRetries config < 0 ->
  fetchWithRetry url (Some config) (initialWorld net ent)
  = (Some (Threw (ThrownError "Fetch failed after all retries")),
     initialWorld net ent).
Proof.
  intros Hneg. unfold fetchWithRetry, bind. cbn [configOrDefault].
  now rewrite attemptLoop_no_attempt by exact Hneg.
Qed.

Lemma fetchWithRetry_negative_budget_witness :
  fetchWithRetry "https://example.test/" (Some negativeBudget)
    (initialWorld (always (Resolved okResponse)) (constantDraw (1 # 2)))
  = (Some (Threw (ThrownError "Fetch failed after all retries")),
     initialWorld (always (Resolved okResponse)) (constantDraw (1 # 2))).
Proof.
  apply fetchWithRetry_negative_budget. simpl. lia.
Defined.

(** X3. With [maxRetries = 0] the run makes exactly one attempt and never
    sleeps: the response of that attempt is returned, whatever its status,
    or its failure is rethrown. *)
Theorem fetchWithRetry_no_retries (config : RetryConfig) (url : string)
    (net : string -> nat -> FetchResult) (ent : nat -> Q) :
  maxRetries config = 0 ->
  fst (fetchWithRetry url (Some config) (initialWorld net ent))
  = Some (settle (net url 0%nat))
  /\ trace (snd (fetchWithRetry url (Some config) (initialWorld net ent)))
     = [EvFetch url].
Proof.
  intros Hzero.
  assert (Hstop : retried config url net 0 = false).
  { replace 0%nat with (Z.to_nat (maxRetries config)) by (rewrite Hzero; reflexivity).
    apply retried_last. lia. }
  rewrite (fetchWithRetry_run config url net ent 0)
    by (try exact Hstop; try (cbn; lia); intros j Hj; lia).
  split; reflexivity.
Qed.

Lemma fetchWithRetry_no_retries_witness :
  fst (fetchWithRetry "https://example.test/" (Some noRetries)
         (initialWorld (always (Resolved serviceUnavailable))
                       (constantDraw (1 # 2))))
  = Some (Returned serviceUnavailable)
  /\ trace (snd (fetchWithRetry "https://example.test/" (Some noRetries)
                   (initialWorld (always (Resolved serviceUnavailable))
                                 (constantDraw (1 # 2)))))
     = [EvFetch "https://example.test/"].
Proof.
  apply (fetchWithRetry_no_retries noRetries "https://example.test/"
           (always (Resolved serviceUnavailable)) (constantDraw (1 # 2))).
  reflexivity.
Defined.

(** X4. If the attempts before attempt [k] are all retried and attempt [k]
    answers with a 2xx status, the run returns that response after [k + 1]
    attempts and [k] sleeps. *)
Theorem fetchWithRetry_recovers (config : RetryConfig) (url : string)
    (net : string -> nat -> FetchResult) (ent : nat -> Q)
    (k : nat) (response : Response) :
  0 <= maxRetries config ->
  (forall j : nat, (j < k)%nat -> retried config url net j = true) ->
  net url k = Resolved response ->
  ok response = true ->
  fst (fetchWithRetry url (Some config) (initialWorld net ent))
  = Some (Returned response)
  /\ attempts (trace (snd (fetchWithRetry url (Some config)
                             (initialWorld net ent)))) = S k
  /\ sleeps (trace (snd (fetchWithRetry url (Some config)
                           (initialWorld net ent)))) = k.
Proof.
  intros Hmax Hpre Hnet Hok.
  assert (Hk : Z.of_nat k <= maxRetries config).
  { destruct k as [|k]; [exact Hmax|].
    assert (H := retried_within_budget config url net k (Hpre k (Nat.lt_succ_diag_r k))).
    lia. }
  assert (Hstop : retried config url net k = false).
  { unfold retried. now rewrite Hnet, Hok. }
  rewrite (fetchWithRetry_run config url net ent k Hk Hpre Hstop), Hnet.
  cbn [fst snd settle trace worldAfter].
  rewrite attempts_schedule, sleeps_schedule. repeat split.
Qed.

Lemma fetchWithRetry_recovers_witness :
  fst (fetchWithRetry "https://example.test/" (Some (newRetryConfig noOptions))
         (initialWorld failThenSucceed (constantDraw (1 # 2))))
  = Some (Returned okResponse)
  /\ attempts (trace (snd (fetchWithRetry "https://example.test/"
                             (Some (newRetryConfig noOptions))
                             (initialWorld failThenSucceed
                                           (constantDraw (1 # 2)))))) = 2%nat
  /\ sleeps (trace (snd (fetchWithRetry "https://example.test/"
                           (Some (newRetryConfig noOptions))
                           (initialWorld failThenSucceed
                                         (constantDraw (1 # 2)))))) = 1%nat.
Proof.
  apply (fetchWithRetry_recovers (newRetryConfig noOptions)
           "https://example.test/" failThenSucceed (constantDraw (1 # 2))
           1%nat okResponse).
  - simpl. lia.
  - intros j Hj. assert (j = 0%nat) as -> by lia. reflexivity.
  - reflexivity.
  - reflexivity.
Defined.

(** X5. When the failures raised by the attempts have a [code] that is a
    string or absent, what a run throws is never made up from a response:
    it is the failure raised by its last attempt, which the policy
    declined to retry.  The error [Fetch failed after all retries] is
    thrown only when [maxRetries] is negative. *)
Theorem fetchWithRetry_throw_origin (config : RetryConfig) (url : string)
    (net : string -> nat -> FetchResult) (ent : nat -> Q) (thrown : Thrown) :
  fst (fetchWithRetry url (Some config) (initialWorld net ent))
  = Some (Threw thrown) ->
  (maxRetries config < 0
   /\ thrown = ThrownError "Fetch failed after all retries")
  \/ (exists (k : nat) (e : Failure),
         thrown = ThrownFailure e
         /\ net url k = Rejected e
         /\ shouldRetry config None (Some e) (Z.of_nat k) = false
         /\ attempts (trace (snd (fetchWithRetry url (Some config)
                                    (initialWorld net ent)))) = S k).
Proof.
  destruct (fetchWithRetry_shape config url net ent)
    as [[Hneg ->]|[k [Hk [_ [Hstop ->]]]]].
  - cbn [fst]. intros H. injection H as <-. left. split; [exact Hneg|reflexivity].
  - cbn [fst snd trace worldAfter]. rewrite attempts_schedule.
    unfold retried in Hstop.
    destruct (net url k) as [response|e] eqn:Hnet; cbn [settle]; intros H;
      [discriminate|].
    injection H as <-. right. exists k, e.
    split; [reflexivity|]. split; [exact Hnet|]. split; [exact Hstop|reflexivity].
Qed.

Lemma fetchWithRetry_throw_origin_witness :
  (maxRetries (newRetryConfig noOptions) < 0
   /\ ThrownFailure badDescriptor = ThrownError "Fetch failed after all retries")
  \/ (exists (k : nat) (e : Failure),
         ThrownFailure badDescriptor = ThrownFailure e
         /\ always (Rejected badDescriptor) "https://example.test/" k = Rejected e
         /\ shouldRetry (newRetryConfig noOptions) None (Some e) (Z.of_nat k)
            = false
         /\ attempts (trace (snd (fetchWithRetry "https://example.test/"
                                    (Some (newRetryConfig noOptions))
                                    (initialWorld (always (Rejected badDescriptor))
                                                  (constantDraw (1 # 2))))))
            = S k).
Proof.
  apply (fetchWithRetry_throw_origin (newRetryConfig noOptions)
           "https://example.test/" (always (Rejected badDescriptor))
           (constantDraw (1 # 2)) (ThrownFailure badDescriptor)).
  reflexivity.
Defined.

(** X6. If no status code and no error marker is configured, nothing is
    ever retried: the run makes one attempt and completes with its
    outcome. *)
Theorem fetchWithRetry_nothing_retryable (config : RetryConfig) (url : string)
    (net : string -> nat -> FetchResult) (ent : nat -> Q) :
  0 <= maxRetries config ->
  retryableStatusCodes config = [] ->
  retryableErrors config = [] ->
  fst (fetchWithRetry url (Some config) (initialWorld net ent))
  = Some (settle (net url 0%nat))
  /\ trace (snd (fetchWithRetry url (Some config) (initialWorld net ent)))
     = [EvFetch url].
Proof.
  intros Hmax Hcodes Hmarkers.
  assert (Hno : forall (statusCode : option Z) (error : option Failure) (n : Z),
             shouldRetry config statusCode error n = false).
  { intros statusCode error n. unfold shouldRetry.
    rewrite Hcodes, Hmarkers.
    destruct (n >=? maxRetries config); [reflexivity|].
    destruct error; [reflexivity|].
    destruct statusCode as [s|]; [|reflexivity].
    destruct (JS.truthyNumber s); reflexivity. }
  assert (Hstop : retried config url net 0 = false).
  { unfold retried. destruct (net url 0%nat); rewrite Hno; [apply andb_false_r|reflexivity]. }
  rewrite (fetchWithRetry_run config url net ent 0)
    by (try exact Hstop; try exact Hmax; intros j Hj; lia).
  split; reflexivity.
Qed.

Lemma fetchWithRetry_nothing_retryable_witness :
  fst (fetchWithRetry "https://example.test/" (Some nothingRetryable)
         (initialWorld (always (Resolved serviceUnavailable))
                       (constantDraw (1 # 2))))
  = Some (Returned serviceUnavailable)
  /\ trace (snd (fetchWithRetry "https://example.test/" (Some nothingRetryable)
                   (initialWorld (always (Resolved serviceUnavailable))
                                 (constantDraw (1 # 2)))))
     = [EvFetch "https://example.test/"].
Proof.
  apply (fetchWithRetry_nothing_retryable nothingRetryable
           "https://example.test/" (always (Resolved serviceUnavailable))
           (constantDraw (1 # 2))).
  - simpl. lia.
  - reflexivity.
  - reflexivity.
Defined.

(** X7. A response with status 0 is never retried, even when 0 is listed
    in [retryableStatusCodes]: the run returns it at once. *)
Theorem fetchWithRetry_status_zero (config : RetryConfig) (url : string)
    (net : string -> nat -> FetchResult) (ent : nat -> Q)
    (k : nat) (response : Response) :
  0 <= maxRetries config ->
  (forall j : nat, (j < k)%nat -> retried config url net j = true) ->
  net url k = Resolved response ->
  status response = 0 ->
  fst (fetchWithRetry url (Some config) (initialWorld net ent))
  = Some (Returned response)
  /\ attempts (trace (snd (fetchWithRetry url (Some config)
                             (initialWorld net ent)))) = S k.
Proof.
  intros Hmax Hpre Hnet Hzero.
  assert (Hk : Z.of_nat k <= maxRetries config).
  { destruct k as [|k]; [exact Hmax|].
    assert (H := retried_within_budget config url net k (Hpre k (Nat.lt_succ_diag_r k))).
    lia. }
  assert (Hstop : retried config url net k = false).
  { unfold retried, shouldRetry. rewrite Hnet, Hzero. cbn [JS.truthyNumber Z.eqb negb].
    destruct (Z.of_nat k >=? maxRetries config); apply andb_false_r. }
  rewrite (fetchWithRetry_run config url net ent k Hk Hpre Hstop), Hnet.
  cbn [fst snd settle trace worldAfter].
  rewrite attempts_schedule. split; reflexivity.
Qed.

Lemma fetchWithRetry_status_zero_witness :
  fst (fetchWithRetry "https://example.test/" (Some zeroStatusConfig)
         (initialWorld (always (Resolved opaqueResponse)) (constantDraw (1 # 2))))
  = Some (Returned opaqueResponse)
  /\ attempts (trace (snd (fetchWithRetry "https://example.test/"
                             (Some zeroStatusConfig)
                             (initialWorld (always (Resolved opaqueResponse))
                                           (constantDraw (1 # 2)))))) = 1%nat.
Proof.
  apply (fetchWithRetry_status_zero zeroStatusConfig "https://example.test/"
           (always (Resolved opaqueResponse)) (constantDraw (1 # 2))
           0%nat opaqueResponse).
  - simpl. lia.
  - intros j Hj. lia.
  - reflexivity.
  - reflexivity.
Defined.

(** ** Further properties of the retry policy *)

(** X9. An empty string among the error markers matches every failure
    whose [code] is a string or absent: while the budget lasts, every such
    transport failure is retried. *)
Theorem shouldRetry_empty_marker (config : RetryConfig)
    (statusCode : option Z) (e : Failure) (attemptNumber : Z) :
  attemptNumber < maxRetries config ->
  In EmptyString (retryableErrors config) ->
  shouldRetry config statusCode (Some e) attemptNumber = true.
Proof.
  intros Hbudget Hin.
  apply (shouldRetry_failure_listed config statusCode e attemptNumber EmptyString);
    [exact Hbudget|exact Hin|].
  exists EmptyString, (failureText e). reflexivity.
Qed.

Lemma shouldRetry_empty_marker_witness :
  shouldRetry anyFailureRetryable None (Some badDescriptor) 0 = true.
Proof.
  apply shouldRetry_empty_marker.
  - simpl. lia.
  - left. reflexivity.
Defined.

(** X10. The decision only depends on the attempt number through the
    budget: an outcome that is retried at attempt [n] is retried at every
    earlier attempt. *)
Theorem shouldRetry_earlier_attempt (config : RetryConfig)
    (statusCode : option Z) (error : option Failure) (n m : Z) :
  m <= n ->
  shouldRetry config statusCode error n = true ->
  shouldRetry config statusCode error m = true.
Proof.
  unfold shouldRetry. intros Hmn.
  destruct (Z.geb_spec n (maxRetries config)); [discriminate|].
  destruct (Z.geb_spec m (maxRetries config)); [lia|]. trivial.
Qed.

Lemma shouldRetry_earlier_attempt_witness :
  shouldRetry (newRetryConfig noOptions) (Some 503) None 0 = true.
Proof.
  apply (shouldRetry_earlier_attempt (newRetryConfig noOptions) (Some 503)
           None 2 0).
  - lia.
  - reflexivity.
Defined.

(** X11. [getConfig] returns all seven settings: a policy constructed from
    the snapshot of a policy is that policy. *)
Theorem newRetryConfig_getConfig (config : RetryConfig) :
  newRetryConfig (getConfig config) = config.
Proof. destruct config; reflexivity. Qed.

Local Open Scope Q_scope.

(** X14. With non-negative integer settings, no jitter, and as long as
    the power, the product and the cap stay below [2 ^ 53] (where doubles
    hold every integer exactly), the delay has a closed form:
    [calculateDelay n] is [min (initialDelayMs * backoffMultiplier ^ n,
    maxDelayMs)], whatever the random draw. *)
Theorem calculateDelay_integer_closed_form (config : RetryConfig)
    (initial multiplier cap n : Z) (w : World) :
  initialDelayMs config == inject_Z initial ->
  backoffMultiplier config == inject_Z multiplier ->
  maxDelayMs config == inject_Z cap ->
  jitterFraction config == 0 ->
  (0 <= initial)%Z -> (0 <= multiplier)%Z -> (0 <= cap)%Z -> (0 <= n)%Z ->
  (n < 2 ^ 53)%Z ->
  (multiplier ^ n < 2 ^ 53)%Z ->
  (initial * multiplier ^ n < 2 ^ 53)%Z ->
  (cap < 2 ^ 53)%Z ->
  fst (calculateDelay config n w) = Z.min (initial * multiplier ^ n) cap.
Proof.
  intros Hinit Hmult Hcap Hjitter Hi Hm Hc Hn _ _ _ _.
  rewrite calculateDelay_draw, delayFromDraw_no_jitter by exact Hjitter.
  assert (Hexp : initialDelayMs config * backoffMultiplier config ^ n
                 == inject_Z (initial * multiplier ^ n)).
  { rewrite Hinit, Hmult, inject_Z_mult, Zpower_Qpower by exact Hn. reflexivity. }
  assert (Hmin : Qmin (initialDelayMs config * backoffMultiplier config ^ n)
                      (maxDelayMs config)
                 == inject_Z (Z.min (initial * multiplier ^ n) cap)).
  { rewrite Hexp, Hcap.
    destruct (Z.min_spec (initial * multiplier ^ n) cap) as [[Hlt ->]|[Hle ->]].
    - apply Q.min_l. rewrite <- Zle_Qle. lia.
    - apply Q.min_r. rewrite <- Zle_Qle. lia. }
  rewrite (Qfloor_comp _ _ Hmin), Qfloor_Z.
  apply Z.max_r.
  apply Z.min_glb; [|exact Hc].
  apply Z.mul_nonneg_nonneg; [exact Hi|]. now apply Z.pow_nonneg.
Qed.

Lemma calculateDelay_integer_closed_form_witness :
  fst (calculateDelay (scenarioConfig [] []) 3
         (initialWorld (always (Resolved okResponse)) (constantDraw (1 # 3))))
  = Z.min (1000 * 2 ^ 3) 30000.
Proof.
  apply calculateDelay_integer_closed_form;
    try reflexivity; try (vm_compute; discriminate).
Defined.

Local Close Scope Q_scope.

(** X30. On doubles, whatever the settings, the attempt number, the
    random draw and the result of [Math.pow]: [calculateDelay] never
    returns a negative number or [-0].  Its result is [NaN], [+0] or
    greater than zero. *)
Theorem calculateDelayDouble_never_negative
    (mathPow : double -> double -> double) (settings : DelaySettings)
    (attemptNumber random : double) :
  calculateDelayDouble mathPow settings attemptNumber random = S754_nan
  \/ calculateDelayDouble mathPow settings attemptNumber random
     = S754_zero false
  \/ SFltb (S754_zero false)
           (calculateDelayDouble mathPow settings attemptNumber random)
     = true.
Proof.
  unfold calculateDelayDouble. cbv zeta.
  generalize (mathFloor
    (doubleAdd
       (mathMin
          (doubleMul (doubleInitialDelayMs settings)
             (mathPow (doubleBackoffMultiplier settings) attemptNumber))
          (doubleMaxDelayMs settings))
       (doubleMul
          (doubleMul (doubleSub random (doubleOf 1 (-1))) (doubleOf 2 0))
          (doubleMul
             (mathMin
                (doubleMul (doubleInitialDelayMs settings)
                   (mathPow (doubleBackoffMultiplier settings) attemptNumber))
                (doubleMaxDelayMs settings))
             (doubleJitterFraction settings))))).
  intros x. unfold mathMax.
  destruct (SFcompare (S754_zero false) x) as [[| |]|] eqn:Hcompare.
  - destruct x as [[|]| | |]; try discriminate Hcompare; auto.
  - right. right. unfold SFltb. now rewrite Hcompare.
  - auto.
  - auto.
Qed.

(** ** Objects as maps *)

Lemma getProp_defineProp_same (o : JsObject) (k v : string) :
  getProp (defineProp o k v) k = Some v.
Proof.
  induction o as [|[k' v'] o IH]; cbn [defineProp getProp].
  - now rewrite String.eqb_refl.
  - destruct (String.eqb k' k) eqn:E; cbn [getProp]; rewrite E; [reflexivity|exact IH].
Qed.

Lemma getProp_defineProp_other (o : JsObject) (k v k' : string) :
  k' <> k ->
  getProp (defineProp o k v) k' = getProp o k'.
Proof.
  intros Hne. induction o as [|[k0 v0] o IH]; cbn [defineProp getProp].
  - destruct (String.eqb_spec k k'); [congruence|reflexivity].
  - destruct (String.eqb_spec k0 k) as [->|Hk0]; cbn [getProp].
    + destruct (String.eqb_spec k k'); [congruence|reflexivity].
    + destruct (String.eqb k0 k'); [reflexivity|exact IH].
Qed.

Lemma getProp_snoc (xs : JsObject) (k0 v0 k : string) :
  getProp (xs ++ [(k0, v0)]) k
  = match getProp xs k with
    | Some v => Some v
    | None => if String.eqb k0 k then Some v0 else None
    end.
Proof.
  induction xs as [|[k1 v1] xs IH]; cbn [app getProp]; [reflexivity|].
  destruct (String.eqb k1 k); [reflexivity|exact IH].
Qed.

(** An assignment to a key other than [__proto__] defines the property. *)
Lemma getProp_setProp_same (o : JsObject) (k v : string) :
  k <> "__proto__"%string ->
  getProp (setProp o k v) k = Some v.
Proof.
  intros Hk. unfold setProp.
  destruct (String.eqb_spec k "__proto__"); [contradiction|].
  apply getProp_defineProp_same.
Qed.

Lemma getProp_setProp_other (o : JsObject) (k v k' : string) :
  k' <> k ->
  getProp (setProp o k v) k' = getProp o k'.
Proof.
  intros Hne. unfold setProp.
  destruct (String.eqb k "__proto__"); [reflexivity|].
  now apply getProp_defineProp_other.
Qed.

(** An assignment to the key [__proto__] stores nothing. *)
Lemma setProp_proto (o : JsObject) (v : string) :
  setProp o "__proto__" v = o.
Proof. reflexivity. Qed.

(** After [Object.assign(target, source)] a property other than
    [__proto__] has the value of its last occurrence in [source], or else
    its value in [target]. *)
Lemma getProp_assign (source target : JsObject) (k : string) :
  k <> "__proto__"%string ->
  getProp (assign target source) k
  = match getProp (rev source) k with
    | Some v => Some v
    | None => getProp target k
    end.
Proof.
  intros Hk. unfold assign. revert target.
  induction source as [|[k0 v0] source IH]; intros target; [reflexivity|].
  cbn [fold_left fst snd rev]. rewrite IH, getProp_snoc.
  destruct (getProp (rev source) k); [reflexivity|].
  destruct (String.eqb_spec k0 k) as [->|Hne].
  - now apply getProp_setProp_same.
  - apply getProp_setProp_other. congruence.
Qed.

(** [Object.assign] never gives the target an own property [__proto__]. *)
Lemma getProp_assign_proto (source target : JsObject) :
  getProp (assign target source) "__proto__"
  = getProp target "__proto__".
Proof.
  unfold assign. revert target.
  induction source as [|[k0 v0] source IH]; intros target; [reflexivity|].
  cbn [fold_left fst snd]. rewrite IH.
  destruct (String.eqb_spec k0 "__proto__") as [->|Hne].
  - now rewrite setProp_proto.
  - apply getProp_setProp_other. congruence.
Qed.

(** In [Object.fromEntries(entries)] a property has the value of its last
    entry. *)
Lemma getProp_fromEntries (entries : list (string * string)) (k : string) :
  getProp (fromEntries entries) k = getProp (rev entries) k.
Proof.
  unfold fromEntries.
  assert (Hfold : forall target : JsObject,
             getProp (fold_left (fun o kv => defineProp o (fst kv) (snd kv))
                                entries target) k
             = match getProp (rev entries) k with
               | Some v => Some v
               | None => getProp target k
               end).
  { induction entries as [|[k0 v0] entries IH]; intros target; [reflexivity|].
    cbn [fold_left fst snd rev]. rewrite IH, getProp_snoc.
    destruct (getProp (rev entries) k); [reflexivity|].
    destruct (String.eqb_spec k0 k) as [->|Hne].
    - apply getProp_defineProp_same.
    - apply getProp_defineProp_other. congruence. }
  rewrite Hfold. now destruct (getProp (rev entries) k).
Qed.

Lemma length_heapSet (h : Heap) (a : nat) (o : JsObject) :
  List.length (heapSet h a o) = List.length h.
Proof.
  revert a. induction h as [|x h IH]; intros [|a]; cbn; congruence.
Qed.

Lemma heapGet_heapSet_same (h : Heap) (a : nat) (o : JsObject) :
  (a < List.length h)%nat ->
  heapGet (heapSet h a o) a = o.
Proof.
  unfold heapGet. revert a.
  induction h as [|x h IH]; intros [|a] Ha; cbn in *; try lia; [reflexivity|].
  apply IH. lia.
Qed.

Lemma heapGet_heapSet_other (h : Heap) (a a' : nat) (o : JsObject) :
  a' <> a ->
  heapGet (heapSet h a o) a' = heapGet h a'.
Proof.
  unfold heapGet. revert a a'.
  induction h as [|x h IH]; intros [|a] [|a'] Hne; cbn; try congruence;
    try reflexivity.
  apply IH. congruence.
Qed.

(** ** [parseResponse] and [parseResponseSafe] *)

Section ParserFacts.

Variable typeError : Failure.

Lemma statusOr_same (s : Z) : statusOr (Some s) (Some s) = s.
Proof.
  unfold statusOr, JS.truthyNumber.
  destruct (Z.eqb_spec s 0); cbn; congruence.
Qed.

Lemma parsedObject_status (response : FetchedResponse) (data : ParsedData)
    (result : ParsedResponse) :
  parsedObject typeError response data = inr result ->
  parsedStatus result = status (descriptor response)
  /\ parsedStatusText result = statusText (descriptor response)
  /\ parsedData result = Some data
  /\ parsedError result = None
  /\ exists h : HeadersObject,
       responseHeaders response = Some h
       /\ parsedHeaders result = fromEntries (nullish (headersEntries h) []).
Proof.
  unfold parsedObject.
  destruct (responseHeaders response) as [h|]; [|discriminate].
  intros H. injection H as <-. cbn. repeat split. now exists h.
Qed.

(** What [parseResponse] throws is a [ResponseParseError] with the status
    of the response, if there is one. *)
Lemma parseResponse_failure (response : option FetchedResponse)
    (thrown : ParserThrown) :
  parseResponse typeError response = inl thrown ->
  exists e : ResponseParseError,
    thrown = ThrownParseError e
    /\ errorStatusCode e
       = option_map (fun r => status (descriptor r)) response.
Proof.
  unfold parseResponse.
  destruct response as [response|]; cbv zeta.
  - destruct (JS.includes (contentTypeOf response) "application/json").
    + destruct (match jsonResult response with
                | inl error => inl error
                | inr data => parsedObject typeError response (JsonData data)
                end) as [error|result]; intros H; [|discriminate].
      injection H as <-. eexists. split; reflexivity.
    + destruct (match textResult response with
                | inl error => inl error
                | inr text => parsedObject typeError response (TextData text)
                end) as [error|result]; intros H; [|discriminate].
      injection H as <-. eexists. split; reflexivity.
  - intros H. injection H as <-. eexists. split; reflexivity.
Qed.

Lemma parseResponse_success (response : option FetchedResponse)
    (result : ParsedResponse) :
  parseResponse typeError response = inr result ->
  exists (r : FetchedResponse) (data : ParsedData),
    response = Some r
    /\ parsedObject typeError r data = inr result
    /\ ((JS.includes (contentTypeOf r) "application/json" = true
         /\ exists j : Json, jsonResult r = inr j /\ data = JsonData j)
        \/ (JS.includes (contentTypeOf r) "application/json" = false
            /\ exists t : string, textResult r = inr t /\ data = TextData t)).
Proof.
  unfold parseResponse.
  destruct response as [r|]; [|discriminate]. cbv zeta.
  destruct (JS.includes (contentTypeOf r) "application/json") eqn:Hjson.
  - destruct (jsonResult r) as [error|j] eqn:Hj; [discriminate|].
    destruct (parsedObject typeError r (JsonData j)) as [error|res] eqn:Hobj;
      [discriminate|].
    intros H. injection H as <-. exists r, (JsonData j).
    split; [reflexivity|]. split; [exact Hobj|]. left. split; [exact Hjson|].
    now exists j.
  - destruct (textResult r) as [error|t] eqn:Ht; [discriminate|].
    destruct (parsedObject typeError r (TextData t)) as [error|res] eqn:Hobj;
      [discriminate|].
    intros H. injection H as <-. exists r, (TextData t).
    split; [reflexivity|]. split; [exact Hobj|]. right. split; [exact Hjson|].
    now exists t.
Qed.


(** X16. The body of a parsed response is decoded as JSON exactly when the
    content type contains [application/json], character for character;
    otherwise it is read as text. *)
Theorem parseResponse_data_kind (r : FetchedResponse) (result : ParsedResponse) :
  parseResponse typeError (Some r) = inr result ->
  (Substring "application/json" (contentTypeOf r)
   /\ exists j : Json,
        jsonResult r = inr j /\ parsedData result = Some (JsonData j))
  \/ (~ Substring "application/json" (contentTypeOf r)
      /\ exists t : string,
           textResult r = inr t /\ parsedData result = Some (TextData t)).
Proof.
  intros H. destruct (parseResponse_success _ _ H) as [r' [data [E [Hobj Hkind]]]].
  injection E as <-.
  destruct (parsedObject_status _ _ _ Hobj) as [_ [_ [Hdata _]]].
  destruct Hkind as [[Hjson [j [Hj ->]]]|[Htext [t [Ht ->]]]].
  - left. split; [now apply includes_Substring|]. now exists j.
  - right. split.
    + intros Hsub. apply includes_Substring in Hsub. congruence.
    + now exists t.
Qed.

(** X17. [parseResponse] succeeds exactly when the response has [headers]
    and the reader selected by the content type resolves. *)
Theorem parseResponse_succeeds_iff (r : FetchedResponse) :
  (exists result : ParsedResponse,
      parseResponse typeError (Some r) = inr result)
  <-> (responseHeaders r <> None
       /\ ((Substring "application/json" (contentTypeOf r)
            /\ exists j : Json, jsonResult r = inr j)
           \/ (~ Substring "application/json" (contentTypeOf r)
               /\ exists t : string, textResult r = inr t))).
Proof.
  split.
  - intros [result Hparse].
    destruct (parseResponse_success _ _ Hparse) as [r' [data [E [Hobj Hkind]]]].
    injection E as <-.
    destruct (parsedObject_status _ _ _ Hobj) as [_ [_ [_ [_ [h [Hh _]]]]]].
    split; [congruence|].
    destruct Hkind as [[Hjson [j [Hj _]]]|[Htext [t [Ht _]]]].
    + left. split; [now apply includes_Substring|]. now exists j.
    + right. split; [|now exists t].
      intros Hsub. apply includes_Substring in Hsub. congruence.
  - intros [Hheaders Hreader]. unfold parseResponse, parsedObject. cbv zeta.
    destruct (responseHeaders r) as [h|]; [|congruence].
    destruct Hreader as [[Hsub [j Hj]]|[Hsub [t Ht]]].
    + apply includes_Substring in Hsub. rewrite Hsub, Hj. eauto.
    + destruct (JS.includes (contentTypeOf r) "application/json") eqn:Hjson.
      * elim Hsub. now apply includes_Substring.
      * rewrite Ht. eauto.
Qed.

(** X18. [parseResponseSafe] reports the status of the response in every
    case, parsed or not, and 0 for a missing response. *)
Theorem parseResponseSafe_status (response : option FetchedResponse) :
  parsedStatus (parseResponseSafe typeError response)
  = match response with
    | Some r => status (descriptor r)
    | None => 0
    end.
Proof.
  unfold parseResponseSafe.
  destruct (parseResponse typeError response) as [thrown|result] eqn:Hparse.
  - destruct (parseResponse_failure _ _ Hparse) as [e [-> Hcode]].
    cbn [parsedStatus]. rewrite Hcode.
    destruct response as [r|]; cbn [option_map]; [apply statusOr_same|reflexivity].
  - destruct (parseResponse_success _ _ Hparse) as [r [data [-> [Hobj _]]]].
    now destruct (parsedObject_status _ _ _ Hobj) as [-> _].
Qed.

End ParserFacts.

Section SafeParserFacts.

Variable typeError : Failure.

(** X19. [parseResponseSafe] returns the result of [parseResponse]
    unchanged when there is one, and turns every error of [parseResponse]
    into a result with that error's message, no data and no headers. *)
Theorem parseResponseSafe_outcome (response : option FetchedResponse) :
  (forall result : ParsedResponse,
      parseResponse typeError response = inr result ->
      parseResponseSafe typeError response = result
      /\ parsedError result = None)
  /\ (forall thrown : ParserThrown,
         parseResponse typeError response = inl thrown ->
         exists e : ResponseParseError,
           thrown = ThrownParseError e
           /\ parsedError (parseResponseSafe typeError response)
              = Some (errorMessage e)
           /\ parsedData (parseResponseSafe typeError response) = None
           /\ parsedHeaders (parseResponseSafe typeError response) = []).
Proof.
  split.
  - intros result Hparse. unfold parseResponseSafe. rewrite Hparse.
    split; [reflexivity|].
    destruct (parseResponse_success typeError _ _ Hparse) as [r [data [_ [Hobj _]]]].
    now destruct (parsedObject_status typeError _ _ _ Hobj) as [_ [_ [_ [-> _]]]].
  - intros thrown Hparse.
    destruct (parseResponse_failure typeError _ _ Hparse)
      as [e [-> _]].
    exists e. unfold parseResponseSafe. rewrite Hparse. cbn. repeat split.
Qed.

(** X20. A response without [headers] cannot be parsed: its content type
    counts as empty, so the body is read as text, and building the result
    fails on [response.headers.entries] even when [text()] succeeds. *)
Theorem parseResponse_missing_headers (r : FetchedResponse) :
  responseHeaders r = None ->
  parseResponse typeError (Some r)
  = inl (ThrownParseError
           (newResponseParseError
              ("Failed to read response body: "
               ++ message match textResult r with
                          | inl error => error
                          | inr _ => typeError
                          end)
              (Some (status (descriptor r)))
              (Some match textResult r with
                    | inl error => error
                    | inr _ => typeError
                    end))).
Proof.
  intros Hnone. unfold parseResponse, contentTypeOf, parsedObject.
  rewrite Hnone. cbn.
  destruct (textResult r); reflexivity.
Qed.

(** X21. In the headers of a parsed response each name has the value of
    the last entry with that name; earlier entries with the same name are
    lost. *)
Theorem parseResponse_headers (r : FetchedResponse) (result : ParsedResponse) :
  parseResponse typeError (Some r) = inr result ->
  exists h : HeadersObject,
    responseHeaders r = Some h
    /\ forall name : string,
         getProp (parsedHeaders result) name
         = getProp (rev (nullish (headersEntries h) [])) name.
Proof.
  intros Hparse.
  destruct (parseResponse_success typeError _ _ Hparse) as [r' [data [E [Hobj _]]]].
  injection E as <-.
  destruct (parsedObject_status typeError _ _ _ Hobj)
    as [_ [_ [_ [_ [h [Hh ->]]]]]].
  exists h. split; [exact Hh|]. intros name.
  rewrite getProp_fromEntries.
  now destruct (getProp (rev (nullish (headersEntries h) [])) name).
Qed.

End SafeParserFacts.


Lemma parseResponse_data_kind_witness :
  (Substring "application/json" (contentTypeOf jsonResponse)
   /\ exists j : Json,
        jsonResult jsonResponse = inr j
        /\ parsedData parsedJson = Some (JsonData j))
  \/ (~ Substring "application/json" (contentTypeOf jsonResponse)
      /\ exists t : string,
           textResult jsonResponse = inr t
           /\ parsedData parsedJson = Some (TextData t)).
Proof.
  apply (parseResponse_data_kind engineTypeError jsonResponse parsedJson).
  reflexivity.
Defined.

Lemma parseResponse_missing_headers_witness :
  parseResponse engineTypeError (Some headerlessResponse)
  = inl (ThrownParseError
           (newResponseParseError
              ("Failed to read response body: "
               ++ message match textResult headerlessResponse with
                          | inl error => error
                          | inr _ => engineTypeError
                          end)
              (Some (status (descriptor headerlessResponse)))
              (Some match textResult headerlessResponse with
                    | inl error => error
                    | inr _ => engineTypeError
                    end))).
Proof.
  apply parseResponse_missing_headers. reflexivity.
Defined.

Lemma parseResponse_headers_witness :
  exists h : HeadersObject,
    responseHeaders jsonResponse = Some h
    /\ forall name : string,
         getProp (parsedHeaders parsedJson) name
         = getProp (rev (nullish (headersEntries h) [])) name.
Proof.
  apply (parseResponse_headers engineTypeError jsonResponse parsedJson).
  reflexivity.
Defined.

(** ** [RequestBuilder] *)

Lemma buildRequest_valid (url : string) (method : option string) (h : Heap) :
  validBuilder (fst (buildRequest url method h)) (snd (buildRequest url method h))
  /\ builderHeaders (fst (buildRequest url method h)) = List.length h
  /\ heapGet (snd (buildRequest url method h)) (List.length h) = []
  /\ forall a : nat,
       (a < List.length h)%nat ->
       heapGet (snd (buildRequest url method h)) a = heapGet h a.
Proof.
  unfold buildRequest, newRequestBuilder, heapAlloc, validBuilder, heapGet.
  cbn [fst snd builderHeaders]. rewrite length_app. cbn [List.length].
  split; [lia|]. split; [reflexivity|]. split.
  - rewrite app_nth2 by lia. now rewrite Nat.sub_diag.
  - intros a Ha. now rewrite app_nth1.
Qed.

Lemma length_buildRequest (url : string) (method : option string) (h : Heap) :
  List.length (snd (buildRequest url method h)) = S (List.length h).
Proof.
  unfold buildRequest, newRequestBuilder, heapAlloc. cbn [snd].
  rewrite length_app. cbn. lia.
Qed.

Lemma heapSet_heapGet (h : Heap) (a : nat) :
  heapSet h a (heapGet h a) = h.
Proof.
  unfold heapGet. revert a.
  induction h as [|x h IH]; intros [|a]; cbn; try reflexivity.
  now rewrite IH.
Qed.

Lemma setHeader_spec (name value : string) (this : RequestBuilder) (h : Heap) :
  validBuilder this h ->
  fst (setHeader name value this h) = this
  /\ validBuilder this (snd (setHeader name value this h))
  /\ (name <> "__proto__"%string ->
      headerAt (snd (setHeader name value this h)) (builderHeaders this) name
      = Some value)
  /\ (forall other : string,
         other <> name ->
         headerAt (snd (setHeader name value this h)) (builderHeaders this) other
         = headerAt h (builderHeaders this) other)
  /\ (forall a : nat,
         a <> builderHeaders this ->
         heapGet (snd (setHeader name value this h)) a = heapGet h a).
Proof.
  unfold validBuilder, setHeader, headerAt. cbn [fst snd]. intros Hvalid.
  split; [reflexivity|]. split; [now rewrite length_heapSet|].
  rewrite heapGet_heapSet_same by exact Hvalid.
  split; [intros Hname; now apply getProp_setProp_same|]. split.
  - intros other Hne. now apply getProp_setProp_other.
  - intros a Hne. now apply heapGet_heapSet_other.
Qed.

(** X22. After [setHeader(name, value)] with a name other than
    [__proto__], the headers have the own property [name] with the value
    [value].  With the name [__proto__] nothing is stored and the heap is
    as before.  In both cases every other header, also one that differs
    from [name] only in case, is as before. *)
Theorem setHeader_lookup (name value : string) (this : RequestBuilder)
    (h : Heap) :
  validBuilder this h ->
  (name <> "__proto__"%string ->
   headerAt (snd (setHeader name value this h)) (builderHeaders this) name
   = Some value)
  /\ (name = "__proto__"%string -> snd (setHeader name value this h) = h)
  /\ forall other : string,
       other <> name ->
       headerAt (snd (setHeader name value this h)) (builderHeaders this) other
       = headerAt h (builderHeaders this) other.
Proof.
  intros Hvalid.
  destruct (setHeader_spec name value this h Hvalid) as [_ [_ [Hsame [Hother _]]]].
  split; [exact Hsame|]. split; [|exact Hother].
  intros ->. unfold setHeader. cbn [snd].
  rewrite setProp_proto. apply heapSet_heapGet.
Qed.

Lemma setHeader_lookup_witness :
  headerAt (snd (setHeader "Accept" "text/plain" (fst sampleBuilder)
                   (snd sampleBuilder)))
           (builderHeaders (fst sampleBuilder)) "Accept"
  = Some "text/plain"%string
  /\ snd (setHeader "__proto__" "text/plain" (fst sampleBuilder)
            (snd sampleBuilder))
     = snd sampleBuilder.
Proof.
  split.
  - destruct (setHeader_lookup "Accept" "text/plain" (fst sampleBuilder)
                (snd sampleBuilder)) as [Hstored _].
    + unfold validBuilder. cbn. lia.
    + apply Hstored. discriminate.
  - destruct (setHeader_lookup "__proto__" "text/plain" (fst sampleBuilder)
                (snd sampleBuilder)) as [_ [Hignored _]].
    + unfold validBuilder. cbn. lia.
    + now apply Hignored.
Defined.

(** X23. After [setHeaders(headers)] a header other than [__proto__] has
    the value given for it in [headers], the last one if it is given
    twice, and its previous value if [headers] does not mention it.  A
    property [__proto__] of [headers] is not copied. *)
Theorem setHeaders_lookup (headers : JsObject) (this : RequestBuilder)
    (h : Heap) (name : string) :
  validBuilder this h ->
  name <> "__proto__"%string ->
  headerAt (snd (setHeaders headers this h)) (builderHeaders this) name
  = match getProp (rev headers) name with
    | Some value => Some value
    | None => headerAt h (builderHeaders this) name
    end
  /\ headerAt (snd (setHeaders headers this h)) (builderHeaders this)
              "__proto__"
     = headerAt h (builderHeaders this) "__proto__".
Proof.
  unfold validBuilder, setHeaders, headerAt. cbn [snd]. intros Hvalid Hname.
  rewrite heapGet_heapSet_same by exact Hvalid.
  split; [now apply getProp_assign|apply getProp_assign_proto].
Qed.

Lemma setHeaders_lookup_witness :
  headerAt (snd (setHeaders [("Accept", "text/plain"); ("X-Id", "7")]%string
                   (fst sampleBuilder) (snd sampleBuilder)))
           (builderHeaders (fst sampleBuilder)) "X-Id"
  = match getProp (rev [("Accept", "text/plain"); ("X-Id", "7")]%string) "X-Id" with
    | Some value => Some value
    | None => headerAt (snd sampleBuilder) (builderHeaders (fst sampleBuilder)) "X-Id"
    end
  /\ headerAt (snd (setHeaders [("Accept", "text/plain"); ("X-Id", "7")]%string
                      (fst sampleBuilder) (snd sampleBuilder)))
              (builderHeaders (fst sampleBuilder)) "__proto__"
     = headerAt (snd sampleBuilder) (builderHeaders (fst sampleBuilder))
                "__proto__".
Proof.
  apply setHeaders_lookup.
  - unfold validBuilder. cbn. lia.
  - discriminate.
Defined.

(** X24. [setBody] stores the value.  For an object or array it sets
    [Content-Type] to [application/json] and leaves every other header as
    it was, also a [content-type] spelled in lower case; for any other
    value it changes no header, so an earlier [Content-Type] stays. *)
Theorem setBody_content_type (value : Json) (this : RequestBuilder) (h : Heap) :
  validBuilder this h ->
  builderBody (fst (setBody value this h)) = value
  /\ builderHeaders (fst (setBody value this h)) = builderHeaders this
  /\ (isObject value = true ->
      headerAt (snd (setBody value this h)) (builderHeaders this) "Content-Type"
      = Some "application/json"%string
      /\ forall other : string,
           other <> "Content-Type"%string ->
           headerAt (snd (setBody value this h)) (builderHeaders this) other
           = headerAt h (builderHeaders this) other)
  /\ (isObject value = false -> snd (setBody value this h) = h).
Proof.
  intros Hvalid. unfold setBody. cbv zeta.
  destruct (isObject value).
  - destruct (setHeader_spec "Content-Type" "application/json"
                (withBody this value) h Hvalid) as [-> [_ [Hsame [Hother _]]]].
    specialize (Hsame ltac:(discriminate)).
    cbn [builderBody builderHeaders withBody] in *.
    repeat split; try discriminate; assumption.
  - cbn. repeat split; try discriminate.
Qed.

Lemma setBody_content_type_witness :
  builderBody (fst (setBody (JObject []) (fst sampleBuilder) (snd sampleBuilder)))
  = JObject []
  /\ headerAt (snd (setBody (JObject []) (fst sampleBuilder) (snd sampleBuilder)))
              (builderHeaders (fst sampleBuilder)) "Content-Type"
     = Some "application/json"%string.
Proof.
  destruct (setBody_content_type (JObject []) (fst sampleBuilder)
              (snd sampleBuilder)) as [Hbody [_ [Hobject _]]].
  - unfold validBuilder. cbn. lia.
  - split; [exact Hbody|]. now apply Hobject.
Defined.

Section BuilderFacts.

Variable jsonStringify : Json -> string.
Variable formEncode : list (string * string) -> string.

(** X25. [build] leaves out a falsy body or timeout: after [setBody] with
    [null], [false], [0] or the empty string the options have no body, and
    after [setTimeout(0)] no timeout.  A non-empty string body is passed
    on as it is, any other truthy body through [JSON.stringify]. *)
Theorem build_drops_falsy (value : Json) (ms : Z) (this : RequestBuilder)
    (h : Heap) :
  (truthy value = false ->
   optionsBody (build jsonStringify (fst (setBody value this h))) = None)
  /\ (forall s : string,
         value = JString s -> s <> EmptyString ->
         optionsBody (build jsonStringify (fst (setBody value this h))) = Some s)
  /\ (truthy value = true -> (forall s : string, value <> JString s) ->
      optionsBody (build jsonStringify (fst (setBody value this h)))
      = Some (jsonStringify value))
  /\ optionsTimeout (build jsonStringify (fst (setTimeout ms this h)))
     = (if ms =? 0 then None else Some ms).
Proof.
  assert (Hbody : builderBody (fst (setBody value this h)) = value).
  { unfold setBody. cbv zeta. destruct (isObject value); reflexivity. }
  unfold build. cbn [optionsBody optionsTimeout]. rewrite Hbody.
  split; [intros ->; reflexivity|]. split; [|split].
  - intros s -> Hs. cbn [truthy]. unfold JS.truthyString.
    destruct (String.eqb_spec s EmptyString); [contradiction|reflexivity].
  - intros -> Hns. destruct value; try reflexivity. now elim (Hns s).
  - cbn [setTimeout fst builderTimeout]. unfold JS.truthyNumber.
    destruct (ms =? 0); reflexivity.
Qed.

(** X26. [build] does not copy the headers: the options hold the
    builder's own headers object, so a header with a name other than
    [__proto__] that is set after [build] shows in the options built
    before. *)
Theorem build_shares_headers (name value : string) (this : RequestBuilder)
    (h : Heap) :
  validBuilder this h ->
  name <> "__proto__"%string ->
  headerAt (snd (setHeader name value this h))
           (optionsHeaders (build jsonStringify this)) name
  = Some value.
Proof.
  intros Hvalid Hname. cbn [build optionsHeaders].
  destruct (setHeader_spec name value this h Hvalid) as [_ [_ [Hsame _]]].
  now apply Hsame.
Qed.

(** X27. For an object or array, [setBody] and [setJsonBody] lead to the
    same request: the same headers and, since [JSON.stringify] of an
    object is never empty, the same built options. *)
Theorem setBody_object_as_setJsonBody (value : Json) (this : RequestBuilder)
    (h : Heap) :
  isObject value = true ->
  jsonStringify value <> EmptyString ->
  build jsonStringify (fst (setBody value this h))
  = build jsonStringify (fst (setJsonBody jsonStringify value this h))
  /\ snd (setBody value this h) = snd (setJsonBody jsonStringify value this h).
Proof.
  intros Hobj Hne. unfold setBody, setJsonBody. cbv zeta. rewrite Hobj.
  unfold setHeader, build. cbn [fst snd withBody builderBody builderMethod
    builderHeaders builderTimeout builderSignal truthy].
  split; [|reflexivity].
  unfold JS.truthyString.
  destruct (String.eqb_spec (jsonStringify value) EmptyString); [contradiction|].
  destruct value; try discriminate Hobj; reflexivity.
Qed.

(** X29. [setFormBody] always sets the form content type, but the request
    gets a body only if the encoded form is not empty: for data that
    encodes to the empty string, [build] leaves the body out. *)
Theorem setFormBody_body (data : list (string * string))
    (this : RequestBuilder) (h : Heap) :
  validBuilder this h ->
  headerAt (snd (setFormBody formEncode data this h)) (builderHeaders this)
           "Content-Type"
  = Some "application/x-www-form-urlencoded"%string
  /\ optionsBody (build jsonStringify (fst (setFormBody formEncode data this h)))
     = (if String.eqb (formEncode data) EmptyString
        then None
        else Some (formEncode data)).
Proof.
  intros Hvalid. unfold setFormBody.
  destruct (setHeader_spec "Content-Type" "application/x-www-form-urlencoded"
              (withBody this (JString (formEncode data))) h Hvalid)
    as [-> [_ [Hsame _]]].
  split; [apply Hsame; discriminate|].
  unfold build. cbn [optionsBody withBody builderBody truthy].
  unfold JS.truthyString.
  destruct (String.eqb (formEncode data) EmptyString); reflexivity.
Qed.

End BuilderFacts.

Lemma setFormBody_body_witness :
  headerAt (snd (setFormBody sampleFormEncode [] (fst sampleBuilder)
                   (snd sampleBuilder)))
           (builderHeaders (fst sampleBuilder)) "Content-Type"
  = Some "application/x-www-form-urlencoded"%string
  /\ optionsBody (build sampleStringify
                    (fst (setFormBody sampleFormEncode [] (fst sampleBuilder)
                            (snd sampleBuilder))))
     = (if String.eqb (sampleFormEncode []) EmptyString
        then None
        else Some (sampleFormEncode [])).
Proof.
  apply setFormBody_body. unfold validBuilder. cbn. lia.
Defined.

Lemma build_shares_headers_witness :
  headerAt (snd (setHeader "Accept" "text/plain" (fst sampleBuilder)
                   (snd sampleBuilder)))
           (optionsHeaders (build sampleStringify (fst sampleBuilder))) "Accept"
  = Some "text/plain"%string.
Proof.
  apply build_shares_headers.
  - unfold validBuilder. cbn. lia.
  - discriminate.
Defined.

Lemma setBody_object_as_setJsonBody_witness :
  build sampleStringify
    (fst (setBody (JObject []) (fst sampleBuilder) (snd sampleBuilder)))
  = build sampleStringify
      (fst (setJsonBody sampleStringify (JObject []) (fst sampleBuilder)
              (snd sampleBuilder)))
  /\ snd (setBody (JObject []) (fst sampleBuilder) (snd sampleBuilder))
     = snd (setJsonBody sampleStringify (JObject []) (fst sampleBuilder)
              (snd sampleBuilder)).
Proof.
  apply setBody_object_as_setJsonBody.
  - reflexivity.
  - discriminate.
Defined.

(** X28. Two builders never share headers: each [buildRequest] allocates
    its own headers object, and setting a header on one builder leaves the
    headers of the other empty. *)
Theorem builders_own_headers (url1 url2 : string) (method1 method2 : option string)
    (name value : string) (h : Heap) :
  builderHeaders (fst (buildRequest url1 method1 h))
  <> builderHeaders (fst (buildRequest url2 method2
                            (snd (buildRequest url1 method1 h))))
  /\ heapGet
       (snd (setHeader name value
               (fst (buildRequest url2 method2 (snd (buildRequest url1 method1 h))))
               (snd (buildRequest url2 method2 (snd (buildRequest url1 method1 h))))))
       (builderHeaders (fst (buildRequest url1 method1 h)))
     = []
  /\ heapGet
       (snd (setHeader name value
               (fst (buildRequest url1 method1 h))
               (snd (buildRequest url2 method2 (snd (buildRequest url1 method1 h))))))
       (builderHeaders (fst (buildRequest url2 method2
                                 (snd (buildRequest url1 method1 h)))))
     = [].
Proof.
  destruct (buildRequest_valid url1 method1 h) as [Hv1 [Ha1 [He1 _]]].
  set (s1 := buildRequest url1 method1 h) in *.
  destruct (buildRequest_valid url2 method2 (snd s1)) as [Hv2 [Ha2 [He2 Hkeep]]].
  set (s2 := buildRequest url2 method2 (snd s1)) in *.
  assert (Hlen : List.length (snd s1) = S (List.length h))
    by apply length_buildRequest.
  assert (Hlen2 : List.length (snd s2) = S (List.length (snd s1)))
    by apply length_buildRequest.
  assert (Hne : builderHeaders (fst s1) <> builderHeaders (fst s2)) by lia.
  split; [exact Hne|]. split.
  - destruct (setHeader_spec name value (fst s2) (snd s2) Hv2) as [_ [_ [_ [_ Hother]]]].
    rewrite Hother by exact Hne.
    rewrite Ha1, (Hkeep (List.length h)) by (rewrite Hlen; apply Nat.lt_succ_diag_r).
    exact He1.
  - assert (Hv1' : validBuilder (fst s1) (snd s2)).
    { unfold validBuilder. rewrite Ha1, Hlen2, Hlen. lia. }
    destruct (setHeader_spec name value (fst s1) (snd s2) Hv1') as [_ [_ [_ [_ Hother]]]].
    rewrite Hother by congruence.
    rewrite Ha2. exact He2.
Qed.
